(** * unleaktrade/waitlist: credential and admission subsystem

    A shallow embedding of the Go sources of the waitlist service
    (cmd/api/routes.go, internal/cache, internal/data/user.go) together
    with the properties its specification states about them.

    Layout: the first part holds the definitions, one [Module] per Go
    package; the second part holds the lemmas and theorems; the third
    part holds further properties of the same code.

    Conventions.
    - Go [string] is [string]; Go [int64] and [int] values that the code
      only stores and compares are [Z].
    - A Go [map[string]int64] is a [gmap string Z]; a [nil] map argument
      is [None].
    - Go interfaces ([crypto.Token], [data.DB]) are type classes; the
      objects behind them are reached through explicit state passing.
    - A handler is a function from the application state to a response,
      the new state and the list of calls it made on its collaborators,
      in program order. *)

From Stdlib Require Import ZArith Ascii String List Bool Lia.
From Stdlib Require Import DecimalString DecimalZ.
From stdpp Require Import base option gmap strings list.

Import ListNotations.
Local Open Scope string_scope.
Local Open Scope list_scope.
Local Open Scope Z_scope.

(* ===================================================================== *)
(** * Part I: definitions                                                 *)
(* ===================================================================== *)

(** Go [error] values: the sentinel [crypto.ErrInvalidToken] and any
    other error, told apart by its message. *)
Inductive error : Type :=
| ErrInvalidToken
| ErrorString (msg : string).

(** Go's [(T, error)] results. *)
Inductive result (A : Type) : Type :=
| Ok  (a : A)
| Err (e : error).
Arguments Ok {A} a.
Arguments Err {A} e.

(** An instant, at the resolution of the time fields of a token. *)
Definition Time := Z.

(** What one request reads from the process while it is served:
    [time.Now()] as the token service sees it, the [uuid.New().String()]
    and [time.Now().UnixMilli()] of [User.Setup], and
    [gin.IsDebugging()]. *)
Record Env : Type := mkEnv {
  env_now    : Time;
  env_uuid   : string;
  env_millis : Z;
  env_debug  : bool
}.

(* --------------------------------------------------------------------- *)
(** ** package data (internal/data/user.go)                               *)
(* --------------------------------------------------------------------- *)
Module data.

(** [type User struct]. *)
Record User : Type := mkUser {
  Address   : string;
  Email     : string;
  UUID      : string;
  Timestamp : Z;
  Sponsor   : string
}.

(** [func (u *User) Setup()]: [uuid.New().String()] and
    [time.Now().UnixMilli()] are the two inputs [uuid] and [millis]. *)
Definition Setup (uuid : string) (millis : Z) (u : User) : User :=
  {| Address := Address u; Email := Email u;
     UUID := uuid; Timestamp := millis;
     Sponsor := Sponsor u |}.

(** [func NewUser(a, e, s string) *User]. *)
Definition NewUser (uuid : string) (millis : Z) (a e s : string) : User :=
  Setup uuid millis
    {| Address := a; Email := e; UUID := ""; Timestamp := 0; Sponsor := s |}.

(** The [data.DB] interface, as routes.go uses it:
    [IsPresent(address) (bool, error)], [Save(u *User) error] and
    [List(options ...int) ([]*User, error)].  [S] is the state of the
    object behind the interface; every method may change it.  [Save]
    receives a pointer and overwrites the record it points to, so it
    returns the record as the caller sees it afterwards. *)
Class DB (S : Type) : Type := {
  IsPresent : S -> string -> result bool * S;
  Save      : S -> User -> (option error * User) * S;
  List      : S -> list Z -> result (list User) * S
}.

End data.

(* --------------------------------------------------------------------- *)
(** ** package cache (internal/cache)                                     *)
(* --------------------------------------------------------------------- *)
Module cache.

(** [type Cache struct { mu sync.RWMutex; m map[string]int64 }].  Each
    method holds the lock for its whole body, so a method is one atomic
    step on [m]. *)
Record Cache : Type := mkCache { m : gmap string Z }.

(** [func New() *Cache]. *)
Definition New : Cache := {| m := ∅ |}.

(** [func (c *Cache) IsPresent(key string) bool]:
    [_, ok := c.m[key]; return ok]. *)
Definition IsPresent (c : Cache) (key : string) : bool :=
  match m c !! key with
  | Some _ => true
  | None => false
  end.

(** [func (c *Cache) Add(key string, ts int64)]: [c.m[key] = ts]. *)
Definition Add (c : Cache) (key : string) (ts : Z) : Cache :=
  {| m := <[key := ts]> (m c) |}.

(** [func (c *Cache) Fill(entries map[string]int64)]: a [nil] argument
    is replaced by a fresh empty map, then the backing map is swapped. *)
Definition Fill (c : Cache) (entries : option (gmap string Z)) : Cache :=
  let entries :=
    match entries with
    | None => ∅
    | Some e => e
    end in
  {| m := entries |}.

End cache.

(* --------------------------------------------------------------------- *)
(** ** package cache, with the maps as the references they are            *)
(* --------------------------------------------------------------------- *)
(** A Go map value is a reference: [Fill] stores the caller's map itself
    in the cache (TestCacheFillSwapsMap compares the two pointers), so the
    caller and the cache then read and write one object.  Here the maps
    live in a heap and a map value is an address, [None] for [nil]. *)
Module cacheref.

Abbreviation Heap := (gmap positive (gmap string Z)).

Record Cache : Type := mkCache { m : option positive }.

(** [make(map[string]int64)]: a new empty map at an unused address. *)
Definition make (h : Heap) : positive * Heap :=
  let l := fresh (dom h) in (l, <[l := ∅]> h).

(** [_, ok := mp[key]] on a map value: a [nil] map has no key. *)
Definition mapaccess (h : Heap) (mp : option positive) (key : string) : bool :=
  match mp ≫= (h !!.) with
  | Some e => bool_decide (is_Some (e !! key))
  | None => false
  end.

(** [mp[key] = ts] on a map value: assignment to an entry of a [nil] map
    panics ([None]). *)
Definition mapassign (h : Heap) (mp : option positive) (key : string) (ts : Z)
  : option Heap :=
  l ← mp; e ← h !! l; Some (<[l := <[key := ts]> e]> h).

(** [func New() *Cache]. *)
Definition New (h : Heap) : Cache * Heap :=
  let (l, h') := make h in ({| m := Some l |}, h').

(** [func (c *Cache) IsPresent(key string) bool]. *)
Definition IsPresent (h : Heap) (c : Cache) (key : string) : bool :=
  mapaccess h (m c) key.

(** [func (c *Cache) Add(key string, ts int64)]. *)
Definition Add (h : Heap) (c : Cache) (key : string) (ts : Z) : option Heap :=
  mapassign h (m c) key ts.

(** [func (c *Cache) Fill(entries map[string]int64)]. *)
Definition Fill (h : Heap) (c : Cache) (entries : option positive)
  : Cache * Heap :=
  match entries with
  | None => let (l, h') := make h in ({| m := Some l |}, h')
  | Some l => ({| m := Some l |}, h)
  end.

(** The cache of package [cache] that a cache in the heap stands for. *)
Definition contents (h : Heap) (c : Cache) : cache.Cache :=
  {| cache.m := default ∅ (m c ≫= (h !!.)) |}.

(** The backing map of the cache is allocated. *)
Definition allocated (h : Heap) (c : Cache) : Prop :=
  exists l, m c = Some l /\ l ∈ dom h.

End cacheref.

(* --------------------------------------------------------------------- *)
(** ** package crypto (internal/crypto)                                   *)
(* --------------------------------------------------------------------- *)
Module crypto.
Import data.

(** The [crypto.Token] interface, as routes.go and the tests use it:
    [Create(u *data.User, t time.Time) (string, error)],
    [Extract(token string)], which returns a user or an error, and
    [Hash(token string) string].  [Extract] reads the clock and, through
    [User.Setup], a fresh UUID: they come with [Env]. *)
Class Token : Type := {
  Create  : User -> Time -> result string;
  Extract : string -> Env -> result User;
  Hash    : string -> string
}.

(** *** The token service

    jwt.go, which holds [JWTBase.Create], [extract] and [hash], is not
    among the sources; only its tests and the constructors
    [NewJWTHS256], [NewJWTHS512] and [JWTHMAC.Extract] are.  The service
    is therefore modelled from the specification (section 4.1). *)

(** The two algorithm families and their two strengths each. *)
Inductive Family : Type := HMAC | ECDSA.
Inductive SigningMethod : Type := HS256 | HS512 | ES256 | ES512.

Definition family (a : SigningMethod) : Family :=
  match a with
  | HS256 | HS512 => HMAC
  | ES256 | ES512 => ECDSA
  end.

Definition Family_eqb (f g : Family) : bool :=
  match f, g with
  | HMAC, HMAC | ECDSA, ECDSA => true
  | _, _ => false
  end.

(** Candidate claims plus the registered fields (issuer, expiry,
    not-before, issued-at) that a token carries. *)
Record UserClaims : Type := mkClaims {
  claim_address : string;
  claim_email   : string;
  claim_sponsor : string;
  Issuer        : string;
  ExpiresAt     : Time;
  NotBefore     : Time;
  IssuedAt      : Time
}.

(** Signing and verification under a key, for every method.  A
    signing fault is an error of [sign]. *)
Class Signer : Type := {
  Key    : Type;
  Sig    : Type;
  sign   : SigningMethod -> Key -> UserClaims -> result Sig;
  verify : SigningMethod -> Key -> UserClaims -> Sig -> bool
}.

(** A token once decoded: the algorithm of its header, its claims and
    its signature. *)
Record Parsed `{Signer} : Type := mkParsed {
  alg       : SigningMethod;
  claims    : UserClaims;
  signature : Sig
}.

(** The serialisation of tokens to strings and back; [decode] fails on
    a malformed token. *)
Class Codec `{Signer} : Type := {
  encode : Parsed -> string;
  decode : string -> option Parsed
}.

(** The fixed validity window and the issuer tag of the deployment. *)
Class Settings : Type := {
  fixedWindow : Z;
  issuer      : string
}.

(** What the laws of a signature scheme and of a serialisation give:
    a signature verifies under the key and method that made it, and a
    serialised token decodes to itself. *)
Definition Signer_correct `{Signer} : Prop :=
  forall a k c s, sign a k c = Ok s -> verify a k c s = true.

Definition Codec_correct `{Codec} : Prop :=
  forall p, decode (encode p) = Some p.

Section Service.
Context `{Codec} `{Settings}.

(** [type JWTBase[T any] struct { method jwt.SigningMethod; k T }]:
    what a service instance is bound to, one method and one key. *)
Record JWTBase : Type := mkJWT {
  method : SigningMethod;
  k      : Key
}.

(** [type JWTHMAC struct { JWTBase[[]byte] }] (hmac.go) and the
    [JWTECDSA] of the tests: a service instance of either family. *)
Inductive JWT : Type :=
| JWTHMAC (b : JWTBase)
| JWTECDSA (b : JWTBase).

Definition base (j : JWT) : JWTBase :=
  match j with
  | JWTHMAC b | JWTECDSA b => b
  end.

(** [func NewJWTHS256(s string) *JWTHMAC] and
    [func NewJWTHS512(s string) *JWTHMAC] (hmac.go). *)
Definition NewJWTHS256 (s : Key) : JWT :=
  JWTHMAC {| method := HS256; k := s |}.
Definition NewJWTHS512 (s : Key) : JWT :=
  JWTHMAC {| method := HS512; k := s |}.

(** [NewJWTECDSA(privateKey, jwt.SigningMethodES256)], as the tests
    call it, on a key already parsed. *)
Definition NewJWTECDSA (key : Key) (m : SigningMethod) : JWT :=
  JWTECDSA {| method := m; k := key |}.


(** Modelled from the spec: [JWTBase.Create] (jwt.go is absent).
    "stamps issuedAt = now, notBefore = now, expiresAt = now +
    fixedWindow; serializes claims plus standard registered fields
    (issuer, not-before, expiry, issued-at); signs with the configured
    key/algorithm.  Fails only on serialization/signing faults; does
    not itself validate claim completeness." *)
Definition stamp (u : User) (t : Time) : UserClaims :=
  {| claim_address := Address u;
     claim_email := Email u;
     claim_sponsor := Sponsor u;
     Issuer := issuer;
     ExpiresAt := t + fixedWindow;
     NotBefore := t;
     IssuedAt := t |}.

Definition create (b : JWTBase) (u : User) (t : Time) : result string :=
  let c := stamp u t in
  match sign (method b) (k b) c with
  | Err e => Err e
  | Ok s => Ok (encode {| alg := method b; claims := c; signature := s |})
  end.

(** The reasons for which verification can fail; [extract] does not
    let them out. *)
Inductive Failure : Type :=
| Malformed
| WrongAlgorithm
| BadSignature
| NotYetValid
| Expired
| MissingClaim.

(** Modelled from the spec: the verification steps of [extract]
    (jwt.go is absent), for the algorithm family [T] and the key of the
    verifying instance.  "verifies signature using the algorithm family
    bound to the verifying instance; verifies notBefore <= now <
    expiresAt; re-validates that identity, contact, and referrer are
    all non-empty." *)
Definition verified (T : Family) (key : Key) (token : string) (now : Time)
  : Failure + UserClaims :=
  match decode token with
  | None => inl Malformed
  | Some p =>
      if negb (Family_eqb (family (alg p)) T)
      then inl WrongAlgorithm
      else if negb (verify (alg p) key (claims p) (signature p))
      then inl BadSignature
      else if now <? NotBefore (claims p) then inl NotYetValid
      else if ExpiresAt (claims p) <=? now then inl Expired
      else if (String.eqb (claim_address (claims p)) ""
               || String.eqb (claim_email (claims p)) ""
               || String.eqb (claim_sponsor (claims p)) "")%bool
      then inl MissingClaim
      else inr (claims p)
  end.

(** Modelled from the spec: [extract[T](token, k)] (jwt.go is absent).
    "Any failure collapses to one undifferentiated InvalidToken
    error."  The record handed back is completed by [User.Setup], as
    TestExtractHMAC requires of the UUID and timestamp of an extracted
    user. *)
Definition extract (T : Family) (token : string) (key : Key) (env : Env)
  : result User :=
  match verified T key token (env_now env) with
  | inl _ => Err ErrInvalidToken
  | inr c =>
      Ok (Setup (env_uuid env) (env_millis env)
            {| Address := claim_address c; Email := claim_email c;
               UUID := ""; Timestamp := 0;
               Sponsor := claim_sponsor c |})
  end.

(** [func (j JWTHMAC) Extract(token string)] (hmac.go):
    [return extract[*jwt.SigningMethodHMAC](token, j.k)]; likewise for
    [JWTECDSA]. *)
Definition JWT_Extract (j : JWT) (token : string) (env : Env)
  : result User :=
  match j with
  | JWTHMAC b => extract HMAC token (k b) env
  | JWTECDSA b => extract ECDSA token (k b) env
  end.

(** [Create] is the method of the embedded [JWTBase]. *)
Definition JWT_Create (j : JWT) (u : User) (t : Time) : result string :=
  create (base j) u t.

(** The family and the key with which an instance verifies. *)
Definition verifying (j : JWT) : Family * Key :=
  match j with
  | JWTHMAC b => (HMAC, k b)
  | JWTECDSA b => (ECDSA, k b)
  end.

(** A service instance behind the [Token] interface, for a given
    fingerprint function ([hash] of jwt.go, absent: the tests show an
    upper-case hexadecimal digest of 128 characters). *)
Definition service (hash : string -> string) (j : JWT) : Token :=
  {| Create := JWT_Create j; Extract := JWT_Extract j; Hash := hash |}.

End Service.

(** The candidate claims of a user record. *)
Definition candidate (u : User) : string * string * string :=
  (Address u, Email u, Sponsor u).

(** Claims that a token needs to be well-formed: identity, contact and
    referrer are non-empty. *)
Definition complete (u : User) : Prop :=
  Address u <> "" /\ Email u <> "" /\ Sponsor u <> "".

End crypto.

(* --------------------------------------------------------------------- *)
(** ** package limiter (internal/limiter)                                 *)
(* --------------------------------------------------------------------- *)
Module limiter.

(** What routes.go asks of [*limiter.RateLimiter]:
    [l := app.rl.GetAccess(ip)] then [l.Allow()].  [L] is the state of
    the limiter; the per-client limiter [l] that [GetAccess] hands out
    is named by its key. *)
Class Limiter (L : Type) : Type := {
  GetAccess : L -> string -> Time -> L;
  Allow     : L -> string -> Time -> bool * L
}.

(** One per-client entry: the budget left, in units of [1/rate_den] of
    a request, the instant of its last refill and of its last use. *)
Record Entry : Type := mkEntry {
  tokens     : Z;
  refilled   : Time;
  lastAccess : Time
}.

(** The steady rate is [rate_num / rate_den] requests per time unit. *)
Record RateLimiter : Type := mkRateLimiter {
  unlimited : bool;
  rate_num  : Z;
  rate_den  : Z;
  burst     : Z;
  entries   : gmap string Entry
}.

Definition New (rate_num rate_den burst : Z) : RateLimiter :=
  {| unlimited := false; rate_num := rate_num; rate_den := rate_den;
     burst := burst; entries := ∅ |}.

Definition NewUnlimited : RateLimiter :=
  {| unlimited := true; rate_num := 0; rate_den := 1; burst := 0;
     entries := ∅ |}.

Definition with_entries (rl : RateLimiter) (es : gmap string Entry)
  : RateLimiter :=
  {| unlimited := unlimited rl; rate_num := rate_num rl;
     rate_den := rate_den rl; burst := burst rl; entries := es |}.

Definition fresh (rl : RateLimiter) (now : Time) : Entry :=
  {| tokens := burst rl * rate_den rl; refilled := now; lastAccess := now |}.

(** Modelled from the spec: [RateLimiter.GetAccess] (internal/limiter
    is absent).  "First call for a previously unseen key lazily creates
    an independent rate-limited counter for that key with a configured
    steady rate and burst allowance"; an entry records its
    [lastAccess]. *)
Definition getAccess (rl : RateLimiter) (ip : string) (now : Time)
  : RateLimiter :=
  if unlimited rl then rl
  else
    match entries rl !! ip with
    | None => with_entries rl (<[ip := fresh rl now]> (entries rl))
    | Some e =>
        with_entries rl
          (<[ip := {| tokens := tokens e; refilled := refilled e;
                      lastAccess := now |}]> (entries rl))
    end.

(** Continuous refill: the budget grows with the time elapsed, up to
    the burst allowance. *)
Definition refill (rl : RateLimiter) (e : Entry) (now : Time) : Z :=
  Z.min (burst rl * rate_den rl)
        (tokens e + Z.max 0 (now - refilled e) * rate_num rl).

(** Modelled from the spec: [Allow] on the limiter of a key
    (internal/limiter is absent).  "Returns false once the budget for
    that key is exhausted for the current instant; returns true and
    consumes one unit otherwise.  A disabled/unlimited variant always
    returns true." *)
Definition allow (rl : RateLimiter) (ip : string) (now : Time)
  : bool * RateLimiter :=
  if unlimited rl then (true, rl)
  else
    let e := default (fresh rl now) (entries rl !! ip) in
    let t := refill rl e now in
    if rate_den rl <=? t
    then (true,
          with_entries rl
            (<[ip := {| tokens := t - rate_den rl; refilled := now;
                        lastAccess := lastAccess e |}]> (entries rl)))
    else (false,
          with_entries rl
            (<[ip := {| tokens := t; refilled := now;
                        lastAccess := lastAccess e |}]> (entries rl))).

Definition bucket : Limiter RateLimiter :=
  {| GetAccess := getAccess; Allow := allow |}.

End limiter.

(* --------------------------------------------------------------------- *)
(** ** strconv.Atoi, as cmd/api/routes.go uses it                          *)
(* --------------------------------------------------------------------- *)
Module strconv.

Definition digit (a : ascii) : option Z :=
  if (("0" <=? a) && (a <=? "9"))%char
  then Some (Z.of_nat (nat_of_ascii a) - 48)
  else None.

Fixpoint digits (acc : Z) (s : string) : option Z :=
  match s with
  | EmptyString => Some acc
  | String a s' =>
      match digit a with
      | Some d => digits (10 * acc + d) s'
      | None => None
      end
  end.

Definition unsigned (s : string) : option Z :=
  match s with
  | EmptyString => None
  | _ => digits 0 s
  end.

(** Base ten, an optional sign, and the range of a 64-bit [int]. *)
Definition Atoi (s : string) : option Z :=
  let v :=
    match s with
    | String "+"%char r => unsigned r
    | String "-"%char r => Z.opp <$> unsigned r
    | _ => unsigned s
    end in
  match v with
  | Some z => if (- 2 ^ 63 <=? z) && (z <=? 2 ^ 63 - 1) then Some z else None
  | None => None
  end.

End strconv.

(* --------------------------------------------------------------------- *)
(** ** package main (cmd/api/routes.go)                                   *)
(* --------------------------------------------------------------------- *)
Module api.
Import data crypto limiter.

(** *** [jwtregexp]

    [^[A-Za-z0-9-_]+\.[A-Za-z0-9-_]+\.[A-Za-z0-9-_]*$]: the three
    groups match runs of the same character class, which has no dot in
    it, so a match is found by taking each run as long as it goes. *)
Definition class (a : ascii) : bool :=
  ((("A" <=? a) && (a <=? "Z")) || (("a" <=? a) && (a <=? "z"))
   || (("0" <=? a) && (a <=? "9"))
   || Ascii.eqb a "-" || Ascii.eqb a "_")%char.

(** The longest prefix within the class, and the rest. *)
Fixpoint run (s : string) : string * string :=
  match s with
  | EmptyString => (EmptyString, EmptyString)
  | String a s' =>
      if class a
      then let (x, y) := run s' in (String a x, y)
      else (EmptyString, s)
  end.

Definition jwtregexp_MatchString (t : string) : bool :=
  match run t with
  | (String _ _, String "."%char r1) =>
      match run r1 with
      | (String _ _, String "."%char r2) =>
          match run r2 with
          | (_, EmptyString) => true
          | _ => false
          end
      | _ => false
      end
  | _ => false
  end.

(** The strings that [[A-Za-z0-9-_]*] matches. *)
Fixpoint word (s : string) : bool :=
  match s with
  | EmptyString => true
  | String a s' => class a && word s'
  end.

(** [func generateSecuredLink(t string) string]. *)
Definition generateSecuredLink (t : string) : string :=
  "https://unleak.trade/activate/" +:+ t.

(** *** Requests and responses *)

(** The routes that [setupRouter] registers under the group [api],
    each with the path parameters and the request data its handler
    reads. *)
Inductive Operation : Type :=
| OpHealth
| OpList (path1 path2 : string) (query : gmap string string)
| OpRegister (body : string)
| OpActivate (token hash : string)
| OpCheckWallet (address : string).

Definition Method (o : Operation) : string :=
  match o with
  | OpHealth | OpList _ _ _ | OpCheckWallet _ => "GET"
  | OpRegister _ | OpActivate _ _ => "POST"
  end.

Record Request : Type := mkRequest {
  op       : Operation;
  header   : gmap string string;
  ClientIP : string
}.

(** [c.GetHeader(key)]: the empty string when the header is absent. *)
Definition GetHeader (r : Request) (key : string) : string :=
  default "" (header r !! key).

(** The values that the handlers put in a [gin.H]; [VError e] stands
    for [e.Error()]. *)
Inductive Value : Type :=
| VString (s : string)
| VBool (b : bool)
| VInt (n : Z)
| VError (e : error)
| VUsers (us : list User).

Inductive Body : Type :=
| Empty
| JSON (h : gmap string Value)
| JSONUser (u : User)
| Data (contentType : string) (records : list (list string)).

Definition Header : Type := (string * string)%type.

Record Response : Type := mkResponse {
  status  : Z;
  headers : list Header;
  body    : Body
}.

(** [net/http] status codes. *)
Definition StatusOK : Z := 200.
Definition StatusCreated : Z := 201.
Definition StatusAccepted : Z := 202.
Definition StatusNoContent : Z := 204.
Definition StatusBadRequest : Z := 400.
Definition StatusUnauthorized : Z := 401.
Definition StatusNotFound : Z := 404.
Definition StatusConflict : Z := 409.
Definition StatusPreconditionFailed : Z := 412.
Definition StatusTooManyRequests : Z := 429.
Definition StatusInternalServerError : Z := 500.

(** [c.JSON(code, gin.H{...})], [c.JSON(code, u)],
    [c.AbortWithStatus(code)]. *)
Definition c_JSON (code : Z) (h : gmap string Value) : Response :=
  {| status := code; headers := []; body := JSON h |}.
Definition c_JSONUser (code : Z) (u : User) : Response :=
  {| status := code; headers := []; body := JSONUser u |}.
Definition c_Status (code : Z) : Response :=
  {| status := code; headers := []; body := Empty |}.

(** The mails that the handlers hand to [app.mailer], each from a
    goroutine of its own. *)
Inductive Mail : Type :=
| SendActivationEmail (email link hash : string)
| SendConfirmationEmail (email : string).

(** The calls a handler makes on its collaborators. *)
Inductive Call : Type :=
| JwtCreate (u : User) (t : Time)
| JwtHash (token : string)
| JwtExtract (token : string)
| DbIsPresent (address : string)
| DbSave (u : User)
| DbList (options : list Z)
| CacheIsPresent (key : string)
| CacheAdd (key : string) (ts : Z)
| RlGetAccess (ip : string)
| RlAllow (ip : string)
| Go (m : Mail).

(** What the handlers take from gin and the standard library:
    [c.ShouldBindJSON(&u)] with the validation its binding tags ask
    for, [time.UnixMilli(ts).In(l).String()] and
    [time.Now().Format("20060102-150405")]. *)
Class Runtime : Type := {
  ShouldBindJSON : string -> result User;
  time_String    : Z -> string;
  time_Format    : Time -> string
}.

(** [type App struct]: the store, the limiter and the cache are the
    mutable parts; [jwt] and [mailer] are the [Token] instance and the
    [Go] calls. *)
Record App (S L : Type) : Type := mkApp {
  db       : S;
  rl       : L;
  secpath1 : string;
  secpath2 : string;
  c        : cache.Cache;
  apiKey   : string
}.
Arguments mkApp {S L}.
Arguments db {S L}.
Arguments rl {S L}.
Arguments secpath1 {S L}.
Arguments secpath2 {S L}.
Arguments c {S L}.
Arguments apiKey {S L}.

Section Handlers.
Context {S L : Type} `{!DB S} `{!Limiter L} `{!Token} `{!Runtime}.

(** A computation on the application: its result, the application
    afterwards and the calls made, in order. *)
Definition Eff (A : Type) : Type := App S L -> A * App S L * list Call.

Definition ret {A : Type} (a : A) : Eff A := fun app => (a, app, []).

Definition bind {A B : Type} (m : Eff A) (f : A -> Eff B) : Eff B :=
  fun app =>
    let '(a, app1, l1) := m app in
    let '(b, app2, l2) := f a app1 in
    (b, app2, l1 ++ l2).

Notation "x <- m ;; k" := (bind m (fun x => k))
  (at level 100, m at next level, right associativity).
Notation "m ;;; k" := (bind m (fun _ => k))
  (at level 100, right associativity).

Definition with_db (app : App S L) (d : S) : App S L :=
  mkApp d (rl app) (secpath1 app) (secpath2 app) (c app) (apiKey app).
Definition with_rl (app : App S L) (l : L) : App S L :=
  mkApp (db app) l (secpath1 app) (secpath2 app) (c app) (apiKey app).
Definition with_c (app : App S L) (k : cache.Cache) : App S L :=
  mkApp (db app) (rl app) (secpath1 app) (secpath2 app) k (apiKey app).

Definition get : Eff (App S L) := fun app => (app, app, []).

(** The calls on [app.jwt]. *)
Definition jwt_Create (u : User) (t : Time) : Eff (result string) :=
  fun app => (Create u t, app, [JwtCreate u t]).
Definition jwt_Hash (token : string) : Eff string :=
  fun app => (Hash token, app, [JwtHash token]).
Definition jwt_Extract (token : string) (env : Env) : Eff (result User) :=
  fun app => (Extract token env, app, [JwtExtract token]).

(** The calls on [app.db]. *)
Definition db_IsPresent (address : string) : Eff (result bool) :=
  fun app =>
    let (r, d) := IsPresent (db app) address in
    (r, with_db app d, [DbIsPresent address]).
Definition db_Save (u : User) : Eff (option error * User) :=
  fun app =>
    let (r, d) := Save (db app) u in
    (r, with_db app d, [DbSave u]).
Definition db_List (options : list Z) : Eff (result (list User)) :=
  fun app =>
    let (r, d) := List (db app) options in
    (r, with_db app d, [DbList options]).

(** The calls on [app.c]. *)
Definition c_IsPresent (key : string) : Eff bool :=
  fun app => (cache.IsPresent (c app) key, app, [CacheIsPresent key]).
Definition c_Add (key : string) (ts : Z) : Eff unit :=
  fun app => (tt, with_c app (cache.Add (c app) key ts), [CacheAdd key ts]).

(** The calls on [app.rl]. *)
Definition rl_GetAccess (ip : string) (now : Time) : Eff unit :=
  fun app => (tt, with_rl app (GetAccess (rl app) ip now), [RlGetAccess ip]).
Definition rl_Allow (ip : string) (now : Time) : Eff bool :=
  fun app =>
    let (b, l) := Allow (rl app) ip now in
    (b, with_rl app l, [RlAllow ip]).

(** [app.wg.Add(1); go func() { defer app.wg.Done(); ... }()]. *)
Definition go (m : Mail) : Eff unit := fun app => (tt, app, [Go m]).

Definition H_error (msg : Value) : gmap string Value :=
  {[ "error" := msg ]}.

(** *** [func (app *App) register(c *gin.Context)] *)
Definition register (env : Env) (body : string) : Eff Response :=
  match ShouldBindJSON body with
  | Err err => ret (c_JSON StatusBadRequest (H_error (VError err)))
  | Ok u =>
      r <- jwt_Create u (env_now env) ;;
      match r with
      | Err err => ret (c_JSON StatusBadRequest (H_error (VError err)))
      | Ok token =>
          hash <- jwt_Hash token ;;
          go (SendActivationEmail (Email u) (generateSecuredLink token) hash) ;;;
          let r : gmap string Value := {[ "hash" := VString hash ]} in
          let r := if env_debug env
                   then <["token" := VString token]> r
                   else r in
          ret (c_JSON StatusAccepted r)
      end
  end.

(** The answer of [register] for a minted token, by name. *)
Definition Accepted_response (env : Env) (token : string) : Response :=
  c_JSON StatusAccepted
    (if env_debug env
     then <["token" := VString token]> {[ "hash" := VString (Hash token) ]}
     else {[ "hash" := VString (Hash token) ]}).

(** *** [func (app *App) checkWallet(c *gin.Context)] *)
Definition checkWallet (a : string) : Eff Response :=
  p <- c_IsPresent a ;;
  if negb p
  then ret (c_JSON StatusNotFound {[ "registered" := VBool false ]})
  else ret (c_JSON StatusOK {[ "registered" := VBool true ]}).

Definition Unauthorized : Response :=
  c_JSON StatusUnauthorized (H_error (VString "Unauthorized")).

(** *** [func (app *App) activate(c *gin.Context)]

    [||] evaluates its right operand, the call of [Hash], only when
    the token matches [jwtregexp]. *)
Definition activate (env : Env) (t h : string) : Eff Response :=
  if negb (jwtregexp_MatchString t) then ret Unauthorized
  else
    h' <- jwt_Hash t ;;
    if negb (String.eqb h' h) then ret Unauthorized
    else
      r <- jwt_Extract t env ;;
      match r with
      | Err _ => ret Unauthorized
      | Ok u =>
          ra <- db_IsPresent (Address u) ;;
          match ra with
          | Err err =>
              ret (c_JSON StatusInternalServerError (H_error (VError err)))
          | Ok true =>
              ret (c_JSON StatusConflict
                     (H_error (VString ("user address " +:+ Address u
                                        +:+ " already used"))))
          | Ok false =>
              rs <- db_IsPresent (Sponsor u) ;;
              match rs with
              | Err err =>
                  ret (c_JSON StatusInternalServerError
                         (H_error (VError err)))
              | Ok false =>
                  ret (c_JSON StatusBadRequest
                         (H_error (VString ("sponsor address "
                                            +:+ Sponsor u
                                            +:+ " not found"))))
              | Ok true =>
                  let e := Email u in
                  saved <- db_Save u ;;
                  let (err, u) := saved in
                  match err with
                  | Some err =>
                      ret (c_JSON StatusInternalServerError
                             (H_error (VError err)))
                  | None =>
                      c_Add (Address u) (Timestamp u) ;;;
                      go (SendConfirmationEmail e) ;;;
                      ret (c_JSONUser StatusCreated u)
                  end
              end
          end
      end.

(** The answers of [activate] after the token checks, by name. *)
Definition Conflict_response (u : User) : Response :=
  c_JSON StatusConflict
    (H_error (VString ("user address " +:+ Address u +:+ " already used"))).

Definition Sponsor_response (u : User) : Response :=
  c_JSON StatusBadRequest
    (H_error (VString ("sponsor address " +:+ Sponsor u +:+ " not found"))).

Definition Internal_response (err : error) : Response :=
  c_JSON StatusInternalServerError (H_error (VError err)).

(** *** [func (app *App) list(c *gin.Context)], here [list']

    [c.Query(k)] is the empty string and [c.DefaultQuery(k, d)] is
    [d] when the key is absent.  The rows go to a [csv.Writer] over a
    [bytes.Buffer], whose writes do not fail. *)
Definition users_rows (us : list User) : list (list string) :=
  ["address"; "email"; "uuid"; "timestamp"; "sponsor"]
  :: map (fun u => [Address u; Email u; UUID u;
                    time_String (Timestamp u); Sponsor u]) us.

Definition list' (env : Env) (p1 p2 : string) (query : gmap string string)
  : Eff Response :=
  app <- get ;;
  if negb (String.eqb p1 (secpath1 app)) || negb (String.eqb p2 (secpath2 app))
  then ret (c_Status StatusNotFound)
  else
    let offset := default "" (query !! "offset") in
    let max := default "" (query !! "max") in
    let parsed : option (list Z) :=
      o ← (if String.eqb offset "" then Some []
           else v ← strconv.Atoi offset; Some [v]);
      if String.eqb max "" then Some o
      else match strconv.Atoi max with
           | Some v => if String.eqb offset "" then None else Some (o ++ [v])
           | None => None
           end in
    match parsed with
    | None => ret (c_Status StatusBadRequest)
    | Some options =>
        r <- db_List options ;;
        match r with
        | Err err =>
            ret (c_JSON StatusInternalServerError (H_error (VError err)))
        | Ok users =>
            let mime := default "json" (query !! "mime") in
            if String.eqb mime "csv"
            then ret {| status := StatusOK;
                        headers :=
                          [("Content-Description", "File Transfer");
                           ("Content-Disposition",
                            "attachment; filename=users_list_"
                            +:+ time_Format (env_now env) +:+ ".csv")];
                        body := Data "text/csv" (users_rows users) |}
            else ret (c_JSON StatusOK
                        (<["count" := VInt (Z.of_nat (length users))]>
                           {[ "users" := VUsers users ]}))
        end
    end.

(** *** Middleware

    A middleware either lets the request through, perhaps after
    setting response headers ([c.Next()]), or answers it itself
    ([c.AbortWith...]), and then nothing after it runs. *)
Inductive Flow : Type :=
| Next (hs : list Header)
| Abort (r : Response).

(** [func (app *App) cors(c *gin.Context)]. *)
Definition cors_headers : list Header :=
  [("Access-Control-Allow-Origin", "*");
   ("Access-Control-Allow-Credentials", "true");
   ("Access-Control-Allow-Headers",
    "origin, content-type, accept, authorization");
   ("Access-Control-Allow-Methods", "GET, POST, OPTIONS")].

Definition cors (env : Env) (req : Request) : Eff Flow :=
  let hs := cors_headers in
  if String.eqb (Method (op req)) "OPTIONS"
  then ret (Abort {| status := StatusNoContent; headers := hs;
                     body := Empty |})
  else ret (Next hs).

(** [func (app *App) limit(c *gin.Context)]. *)
Definition limit (env : Env) (req : Request) : Eff Flow :=
  let ip := ClientIP req in
  rl_GetAccess ip (env_now env) ;;;
  ok <- rl_Allow ip (env_now env) ;;
  if negb ok
  then ret (Abort (c_JSON StatusTooManyRequests
                     (<["ip" := VString ip]>
                        (H_error (VString "Too Many Requests")))))
  else ret (Next []).

(** What the limiter answers to [limit], and its state afterwards. *)
Definition limited (app : App S L) (env : Env) (req : Request) : bool * L :=
  Allow (GetAccess (rl app) (ClientIP req) (env_now env))
        (ClientIP req) (env_now env).

(** [func (app *App) requireAPIKey(c *gin.Context)]. *)
Definition requireAPIKey (env : Env) (req : Request) : Eff Flow :=
  app <- get ;;
  let k := GetHeader req "UNLK-API-KEY" in
  if String.eqb k "" || negb (String.eqb k (apiKey app))
  then ret (Abort Unauthorized)
  else ret (Next []).

Definition add_headers (hs : list Header) (r : Response)
  : Response :=
  {| status := status r; headers := hs ++ headers r; body := body r |}.

(** gin runs the handlers of a route in order until one aborts. *)
Fixpoint chain (ms : list (Env -> Request -> Eff Flow))
         (h : Env -> Request -> Eff Response)
         (env : Env) (req : Request) : Eff Response :=
  match ms with
  | [] => h env req
  | mw :: ms' =>
      f <- mw env req ;;
      match f with
      | Abort r => ret r
      | Next hs =>
          r <- chain ms' h env req ;;
          ret (add_headers hs r)
      end
  end.

(** The handler of each route of the group. *)
Definition handler (env : Env) (req : Request) : Eff Response :=
  match op req with
  | OpHealth => ret (c_JSON StatusOK {[ "status" := VString "ok" ]})
  | OpList p1 p2 q => list' env p1 p2 q
  | OpRegister b => register env b
  | OpActivate t h => activate env t h
  | OpCheckWallet a => checkWallet a
  end.

(** [func setupRouter(app *App) *gin.Engine], on a request that gin
    has matched to a route of the group:
    [api.Use(app.cors, app.limit, app.requireAPIKey)]. *)
Definition setupRouter : Env -> Request -> Eff Response :=
  chain [cors; limit; requireAPIKey] handler.

(** The answer of [list] for the users the store gave, by name. *)
Definition list_answer (env : Env) (users : list User) (mime : string) : Response :=
  if String.eqb mime "csv"
  then {| status := StatusOK;
          headers :=
            [("Content-Description", "File Transfer");
             ("Content-Disposition",
              "attachment; filename=users_list_"
              +:+ time_Format (env_now env) +:+ ".csv")];
          body := Data "text/csv" (users_rows users) |}
  else c_JSON StatusOK
         (<["count" := VInt (Z.of_nat (length users))]>
            {[ "users" := VUsers users ]}).

(** *** main.go *)

(** [func (app *App) initCache()]: the map from the address to the
    timestamp of every user that [app.db.List()] gives, then
    [c := cache.New(); c.Fill(m); app.c = c]; a failing [List] panics
    ([inl], with the message). *)
Definition users_map (users : list User) : gmap string Z :=
  foldl (fun m u => <[Address u := Timestamp u]> m) ∅ users.

Definition initCache (app : App S L) : string + App S L :=
  let (r, d) := List (db app) [] in
  match r with
  | Err _ => inl "error loading users list from DB"
  | Ok users =>
      inr (with_c (with_db app d)
             (cache.Fill cache.New (Some (users_map users))))
  end.

End Handlers.

(** The three parts of what a computation gives on an application. *)
Definition answer {A S L : Type} (x : A * App S L * list Call) : A := x.1.1.
Definition after {A S L : Type} (x : A * App S L * list Call) : App S L :=
  x.1.2.
Definition calls {A S L : Type} (x : A * App S L * list Call) : list Call :=
  x.2.

(** Kinds of calls. *)
Definition is_extract (k : Call) : bool :=
  match k with
  | JwtExtract _ => true
  | _ => false
  end.

Definition on_db (k : Call) : bool :=
  match k with
  | DbIsPresent _ | DbSave _ | DbList _ => true
  | _ => false
  end.

Definition is_go (k : Call) : bool :=
  match k with
  | Go _ => true
  | _ => false
  end.

Definition on_cache (k : Call) : bool :=
  match k with
  | CacheIsPresent _ | CacheAdd _ _ => true
  | _ => false
  end.

(** What [list] makes of the query parameters [offset] and [max]: the
    options it hands to [app.db.List], or nothing when it answers 400. *)
Definition query_options (query : gmap string string) : option (list Z) :=
  let offset := default "" (query !! "offset") in
  let max := default "" (query !! "max") in
  o ← (if String.eqb offset "" then Some []
       else v ← strconv.Atoi offset; Some [v]);
  if String.eqb max "" then Some o
  else match strconv.Atoi max with
       | Some v => if String.eqb offset "" then None else Some (o ++ [v])
       | None => None
       end.

(** *** [func setup()] of main.go

    The package variables that [setup] fills, from the environment and
    from the keys and the two ECDSA services it has just generated;
    [inl] is a panic, with its message. *)
Section Main.
Context `{Signer}.

Record Vars : Type := mkVars {
  jwts          : gmap string JWT;
  tableName     : string;
  ek            : string;
  var_secpath1  : string;
  var_secpath2  : string;
  var_apiKey    : string
}.

Definition setup (k32 k16 : Key) (es256 es512 : JWT)
    (Getenv : string -> string) : string + Vars :=
  let jwts : gmap string JWT :=
    <["ES512" := es512]>
      (<["ES256" := es256]>
         (<["HS256" := NewJWTHS256 k16]>
            (<["HS512" := NewJWTHS512 k32]> ∅))) in
  let tn := Getenv "UNLEAKTRADE_WAITLIST_TABLE_NAME" in
  let tableName := if negb (String.eqb tn "") then tn else "Waitlist" in
  let ek := Getenv "UNLEAKTRADE_ENCRYPTION_KEY" in
  if String.eqb ek "" then inl "encryption key is missing"
  else
    let secpath1 := Getenv "UNLEAKTRADE_API_SECURE_PATH1" in
    if String.eqb secpath1 "" then inl "secure path #1 must be set"
    else
      let secpath2 := Getenv "UNLEAKTRADE_API_SECURE_PATH2" in
      if String.eqb secpath2 "" then inl "secure path #1 must be set"
      else
        let apiKey := Getenv "UNLEAKTRADE_WAITLIST_API_KEY" in
        if String.eqb apiKey "" then inl "waitlist api-key must be set"
        else inr {| jwts := jwts; tableName := tableName; ek := ek;
                    var_secpath1 := secpath1; var_secpath2 := secpath2;
                    var_apiKey := apiKey |}.

End Main.

(** The link format that the specification gives:
    [<base-URL>/activate/<token>/<fingerprint>]. *)
Definition spec_link (base token fingerprint : string) : string :=
  base +:+ "/activate/" +:+ token +:+ "/" +:+ fingerprint.

End api.

(* --------------------------------------------------------------------- *)
(** ** Reference instances                                                *)
(* --------------------------------------------------------------------- *)
(** Concrete collaborators on which the handlers and the token service
    can be run: a store in the manner of the test doubles of package
    data, a signature scheme and a serialisation that satisfy
    [Signer_correct] and [Codec_correct], and the settings that the test
    vectors of hmac_test.go show (a window of 600, issuer
    "unleak.trade"). *)
Module fixtures.
Import data crypto.

(** *** A store over a list of known addresses

    Modelled from the spec: the doubles [data.NewMockDBContent],
    [data.NewMockErrDB] and [data.NewMockErrFindingAddress] that
    TestActivate uses (their source is absent), after the contract of
    the durable store: [exists(identity)], [persist(record)],
    [list(offset, limit)]. *)
Record MockDB : Type := mkMockDB {
  content : list string;
  faulty  : bool;
  failing : option string
}.

Definition NewMockDBContent (l : list string) : MockDB :=
  {| content := l; faulty := false; failing := None |}.
Definition NewMockErrDB (l : list string) : MockDB :=
  {| content := l; faulty := true; failing := None |}.
Definition NewMockErrFindingAddress (l : list string) (a : string) : MockDB :=
  {| content := l; faulty := false; failing := Some a |}.

Definition mock_error : error := ErrorString "mock DB error".

Definition mock_IsPresent (d : MockDB) (a : string) : result bool * MockDB :=
  if faulty d then (Err mock_error, d)
  else if bool_decide (failing d = Some a) then (Err mock_error, d)
  else (Ok (bool_decide (a ∈ content d)), d).

Definition mock_Save (d : MockDB) (u : User) : (option error * User) * MockDB :=
  if faulty d then ((Some mock_error, u), d)
  else ((None, u),
        {| content := content d ++ [Address u]; faulty := faulty d;
           failing := failing d |}).

Definition mock_List (d : MockDB) (options : list Z)
  : result (list User) * MockDB :=
  if faulty d then (Err mock_error, d)
  else (Ok (map (fun a => mkUser a "" "" 0 "") (content d)), d).

#[export] Instance mockdb : DB MockDB :=
  {| IsPresent := mock_IsPresent; Save := mock_Save; List := mock_List |}.

(** *** Hexadecimal strings *)
Definition hexdigit (n : nat) : ascii :=
  ascii_of_nat (if n <? 10 then 48 + n else 55 + n)%nat.

Definition unhexdigit (a : ascii) : option nat :=
  let n := nat_of_ascii a in
  if ((48 <=? n) && (n <=? 57))%nat then Some (n - 48)%nat
  else if ((65 <=? n) && (n <=? 70))%nat then Some (n - 55)%nat
  else None.

Definition hi (a : ascii) : ascii := hexdigit (nat_of_ascii a / 16)%nat.
Definition lo (a : ascii) : ascii := hexdigit (nat_of_ascii a mod 16)%nat.

Fixpoint hex (s : string) : string :=
  match s with
  | EmptyString => EmptyString
  | String a s' => String (hi a) (String (lo a) (hex s'))
  end.

Definition unhex_byte (a b : ascii) : option ascii :=
  x ← unhexdigit a; y ← unhexdigit b; Some (ascii_of_nat (16 * x + y)%nat).

Fixpoint unhex (s : string) : option string :=
  match s with
  | EmptyString => Some EmptyString
  | String a (String b s') =>
      c ← unhex_byte a b; r ← unhex s'; Some (String c r)
  | _ => None
  end.

(** Integers in decimal. *)
Definition dec (z : Z) : string := NilEmpty.string_of_int (Z.to_int z).
Definition undec (s : string) : option Z :=
  Z.of_int <$> NilEmpty.int_of_string s.

(** [cut c s] splits [s] at the first [c]. *)
Fixpoint cut (c : ascii) (s : string) : option (string * string) :=
  match s with
  | EmptyString => None
  | String a s' =>
      if Ascii.eqb a c then Some (EmptyString, s')
      else '(x, y) ← cut c s'; Some (String a x, y)
  end.

(** [free c s]: [c] does not occur in [s]. *)
Fixpoint free (c : ascii) (s : string) : bool :=
  match s with
  | EmptyString => true
  | String a s' => negb (Ascii.eqb a c) && free c s'
  end.

(** *** A signature scheme

    The signature of claims under a key and a method is the term made
    of the three; it verifies under that key and method only. *)
Definition name (a : SigningMethod) : string :=
  match a with
  | HS256 => "HS256" | HS512 => "HS512" | ES256 => "ES256" | ES512 => "ES512"
  end.

Definition of_name (s : string) : option SigningMethod :=
  if String.eqb s "HS256" then Some HS256
  else if String.eqb s "HS512" then Some HS512
  else if String.eqb s "ES256" then Some ES256
  else if String.eqb s "ES512" then Some ES512
  else None.

Definition fields (c : UserClaims) : string :=
  hex (claim_address c) +:+ "-" +:+ hex (claim_email c) +:+ "-"
  +:+ hex (claim_sponsor c) +:+ "-" +:+ hex (Issuer c) +:+ "-"
  +:+ hex (dec (ExpiresAt c)) +:+ "-" +:+ hex (dec (NotBefore c)) +:+ "-"
  +:+ hex (dec (IssuedAt c)).

Definition mac (a : SigningMethod) (k : string) (c : UserClaims) : string :=
  name a +:+ ":" +:+ k +:+ ":" +:+ fields c.

#[export] Instance symbolic : Signer :=
  {| Key := string; Sig := string;
     sign := fun a k c => Ok (mac a k c);
     verify := fun a k c s => String.eqb s (mac a k c) |}.

(** *** A serialisation: [<alg>.<fields>.<signature>] *)
Definition encode_token (p : @Parsed symbolic) : string :=
  name (alg p) +:+ "." +:+ fields (claims p) +:+ "." +:+ hex (signature p).

Definition decode_token (t : string) : option (@Parsed symbolic) :=
  '(a, t) ← cut "." t; a ← of_name a;
  '(f1, t) ← cut "-" t; address ← unhex f1;
  '(f2, t) ← cut "-" t; email ← unhex f2;
  '(f3, t) ← cut "-" t; sponsor ← unhex f3;
  '(f4, t) ← cut "-" t; iss ← unhex f4;
  '(f5, t) ← cut "-" t; d5 ← unhex f5; exp ← undec d5;
  '(f6, t) ← cut "-" t; d6 ← unhex f6; nbf ← undec d6;
  '(f7, t) ← cut "." t; d7 ← unhex f7; iat ← undec d7;
  s ← unhex t;
  Some (@mkParsed symbolic a
          (mkClaims address email sponsor iss exp nbf iat) s).

#[export] Instance hexcodec : Codec :=
  {| encode := encode_token; decode := decode_token |}.

#[export] Instance settings : Settings :=
  {| fixedWindow := 600; issuer := "unleak.trade" |}.

(** A stand-in for the fingerprint: the bytes of the token in
    upper-case hexadecimal. *)
Definition digest (token : string) : string := hex token.

(** *** A request binder: [address|email|sponsor], all three required *)
Definition bind_body (body : string) : result User :=
  match ('(a, r) ← cut "|" body; '(e, s) ← cut "|" r; Some (a, e, s)) with
  | Some (a, e, s) =>
      if (String.eqb a "" || String.eqb e "" || String.eqb s "")%bool
      then Err (ErrorString "required")
      else Ok (mkUser a e "" 0 s)
  | None => Err (ErrorString "invalid request")
  end.

#[export] Instance runtime : api.Runtime :=
  {| api.ShouldBindJSON := bind_body;
     api.time_String := dec;
     api.time_Format := dec |}.

(** *** The values of the tests *)
Definition secret : string := "VERY_SECURE_JWT_SECRET_L0L".
Definition address : string := "5tsrsspeS4ARKhPzLpzqaMjwu2KzhvktoJFW1Lv7pqVF".
Definition email : string := "john.doe@mailservice.com".
Definition sponsor : string := "9mf2bkJf5TebjCYQYq3WcK61ruHTs3bpeQwW2s6WWj3A".
Definition testApiKey : string := "test-api-key".

Definition u : User := mkUser address email "" 0 sponsor.

(** The instant of issuance, and a request served at that instant. *)
Definition issued : Time := 1647952.

Definition env0 : Env :=
  {| env_now := issued; env_uuid := "6f1c2a50-0000-4000-8000-000000000001";
     env_millis := 1647952128; env_debug := false |}.

Definition at_instant (now : Time) : Env :=
  {| env_now := now; env_uuid := env_uuid env0;
     env_millis := env_millis env0; env_debug := false |}.

(** The service of the application and the token [vt] of TestActivate
    with its fingerprint [vh]. *)
Definition jwt : JWT := NewJWTHS256 secret.

#[export] Instance token_service : Token := service digest jwt.

#[export] Instance bucket : limiter.Limiter limiter.RateLimiter :=
  limiter.bucket.

Definition minted (j : JWT) (u : User) (t : Time) : string :=
  match JWT_Create j u t with
  | Ok token => token
  | Err _ => ""
  end.

Definition vt : string := Eval vm_compute in minted jwt u issued.
Definition vh : string := Eval vm_compute in digest vt.

(** The user that [Extract] hands back for [vt] at [env0]. *)
Definition extracted : User :=
  Setup (env_uuid env0) (env_millis env0) u.

(** A token for claims without an identity, and a token of another
    instance (TestExtractHMAC, TestForgedToken). *)
Definition without_address : User := mkUser "" email "" 0 sponsor.
Definition vt_without_address : string :=
  Eval vm_compute in minted jwt without_address issued.
Definition vt_forged : string :=
  Eval vm_compute in minted (NewJWTHS256 "ANOTHER_SECRET") u issued.
Definition vt_ecdsa : string :=
  Eval vm_compute in minted (NewJWTECDSA secret ES256) u issued.

(** The application of TestActivate over a given store and limiter. *)
Definition application (d : MockDB) (l : limiter.RateLimiter)
  : api.App MockDB limiter.RateLimiter :=
  api.mkApp d l "path1" "path2" cache.New testApiKey.

Definition app0 := application (NewMockDBContent [sponsor]) limiter.NewUnlimited.
Definition app_known := application (NewMockDBContent [address]) limiter.NewUnlimited.
Definition app_empty := application (NewMockDBContent []) limiter.NewUnlimited.

(** The limiter of [newApp]: [limiter.New(0.1, 10)]. *)
Definition app_limited :=
  application (NewMockDBContent [sponsor]) (limiter.New 1 10 10).

Definition body0 : string := address +:+ "|" +:+ email +:+ "|" +:+ sponsor.

Definition with_key : gmap string string := {[ "UNLK-API-KEY" := testApiKey ]}.

(** A request for the health route that carries no key. *)
Definition keyless : api.Request := api.mkRequest api.OpHealth ∅ "203.0.113.7".

(** The application once [n] such requests have been served, all at the
    instant of [env0]. *)
Definition served (n : nat) : api.App MockDB limiter.RateLimiter :=
  Nat.iter n (fun a => api.after (api.setupRouter env0 keyless a)) app_limited.

End fixtures.

(* ===================================================================== *)
(** * Part II: lemmas and theorems                                        *)
(* ===================================================================== *)

Module cache_facts.
Import cache.

Lemma IsPresent_true_iff (c : Cache) (k : string) :
  IsPresent c k = true <-> k ∈ dom (m c).
Proof.
  unfold IsPresent. rewrite elem_of_dom.
  destruct (m c !! k) as [v|] eqn:E.
  - split; [eauto | reflexivity].
  - split; [discriminate | intros [v Hv]; discriminate].
Qed.

Lemma IsPresent_New (k : string) : IsPresent New k = false.
Proof. unfold IsPresent, New; simpl. by rewrite lookup_empty. Qed.

Lemma IsPresent_Add (c : Cache) (k k' : string) (ts : Z) :
  IsPresent (Add c k ts) k' = if decide (k = k') then true else IsPresent c k'.
Proof.
  unfold IsPresent, Add; simpl. rewrite lookup_insert.
  destruct (decide (k = k')); reflexivity.
Qed.

(** C7.  After [Fill] with an entry set, [IsPresent] answers true
    exactly on the keys of that set, whatever the cache held before;
    after [Fill] with a nil or an empty set it answers false on every
    key, and the cache is the one [New] makes. *)
Theorem Fill_IsPresent (c : Cache) (entries : gmap string Z) (k : string) :
  (IsPresent (Fill c (Some entries)) k = true <-> k ∈ dom entries)
  /\ IsPresent (Fill c None) k = false
  /\ IsPresent (Fill c (Some ∅)) k = false
  /\ Fill c None = New
  /\ Fill c (Some ∅) = New.
Proof.
  split; [apply IsPresent_true_iff |].
  repeat split; try reflexivity; apply IsPresent_New.
Qed.

End cache_facts.

Module api_facts.
Import data crypto limiter api.

(** **** [jwtregexp] matches what the regular expression says *)

Lemma run_split (s : string) :
  s = (run s).1 +:+ (run s).2
  /\ word (run s).1 = true
  /\ match (run s).2 with
     | EmptyString => True
     | String a _ => class a = false
     end.
Proof.
  induction s as [| a s IH]; [by repeat split |].
  cbn [run]. destruct (class a) eqn:Ha.
  - destruct (run s) as [x y]. simpl in *.
    destruct IH as (Hs & Hw & Hy).
    split; [by rewrite Hs at 1 | split; [| exact Hy]].
    cbn [word]. by rewrite Ha, Hw.
  - simpl. by repeat split.
Qed.

Lemma run_word (x y : string) :
  word x = true ->
  match y with
  | EmptyString => True
  | String a _ => class a = false
  end ->
  run (x +:+ y) = (x, y).
Proof.
  intros Hx Hy. induction x as [| a x IH].
  - change (run y = (EmptyString, y)).
    destruct y as [| b y]; [reflexivity |]. cbn [run]. by rewrite Hy.
  - cbn [word] in Hx. apply andb_true_iff in Hx as [Ha Hx].
    change (run (String a (x +:+ y)) = (String a x, y)).
    cbn [run]. by rewrite Ha, (IH Hx).
Qed.

(** X26.  [jwtregexp] matches exactly the strings made of three
    segments of letters, digits, hyphens and underscores separated by
    two dots, the first two segments not empty. *)
Lemma jwtregexp_MatchString_spec (t : string) :
  jwtregexp_MatchString t = true <->
  exists a b c,
    t = a +:+ "." +:+ b +:+ "." +:+ c
    /\ word a = true /\ a <> ""
    /\ word b = true /\ b <> ""
    /\ word c = true.
Proof.
  split.
  - unfold jwtregexp_MatchString.
    destruct (run_split t) as (Ht & Hwa & _).
    destruct (run t) as [a r]. simpl in Ht, Hwa.
    destruct a as [| a0 a]; [discriminate |].
    destruct r as [| d1 r1]; [discriminate |].
    destruct (Ascii.eqb_spec d1 ".") as [-> | Hd1];
      [| by destruct d1 as [[] [] [] [] [] [] [] []]].
    destruct (run_split r1) as (Hr1 & Hwb & _).
    destruct (run r1) as [b r]. simpl in Hr1, Hwb.
    destruct b as [| b0 b]; [discriminate |].
    destruct r as [| d2 r2]; [discriminate |].
    destruct (Ascii.eqb_spec d2 ".") as [-> | Hd2];
      [| by destruct d2 as [[] [] [] [] [] [] [] []]].
    destruct (run_split r2) as (Hr2 & Hwc & _).
    destruct (run r2) as [c r]. simpl in Hr2, Hwc.
    destruct r; [| discriminate]. intros _.
    exists (String a0 a), (String b0 b), c.
    repeat split; try done.
    rewrite Ht. f_equal. change ("." +:+ ?x) with (String "."%char x).
    rewrite Hr1 at 1. f_equal. f_equal.
    change ("." +:+ c) with (String "."%char c). f_equal.
    rewrite Hr2 at 1. clear. induction c as [| x c IH]; [reflexivity |].
    change (String x (c +:+ "") = String x c). by rewrite IH.
  - intros (a & b & c & -> & Hwa & Ha & Hwb & Hb & Hwc).
    unfold jwtregexp_MatchString.
    change (a +:+ "." +:+ b +:+ "." +:+ c)
      with (a +:+ String "."%char (b +:+ String "."%char c)).
    rewrite (run_word a _ Hwa) by reflexivity.
    destruct a as [| a0 a]; [done |].
    rewrite (run_word b _ Hwb) by reflexivity.
    destruct b as [| b0 b]; [done |].
    assert (Hc : run c = (c, EmptyString)).
    { pose proof (run_word c EmptyString Hwc I) as Hr.
      assert (Hnil : c +:+ "" = c).
      { clear. induction c as [| x c IH]; [reflexivity |].
        change (String x (c +:+ "") = String x c). by rewrite IH. }
      by rewrite Hnil in Hr. }
    by rewrite Hc.
Qed.

Section Facts.
Context {S L : Type} `{!DB S} `{!Limiter L} `{!Token} `{!Runtime}.
Implicit Types (app : App S L) (env : Env) (t h : string) (u : User).

(** **** What [activate] does on each of its paths *)

Lemma activate_no_match app env t h :
  jwtregexp_MatchString t = false ->
  activate env t h app = (Unauthorized, app, []).
Proof. intros E. unfold activate. rewrite E. reflexivity. Qed.

Lemma activate_mismatch app env t h :
  jwtregexp_MatchString t = true -> Hash t <> h ->
  activate env t h app = (Unauthorized, app, [JwtHash t]).
Proof.
  intros E N. unfold activate. rewrite E. simpl.
  unfold bind, jwt_Hash.
  apply String.eqb_neq in N. rewrite N. reflexivity.
Qed.

(** C1.  When the token does not match [jwtregexp] or its
    fingerprint differs from the one supplied, [activate] answers
    Unauthorized (401), leaves the application as it was and never
    calls [Extract]: the only call it may have made is [Hash]. *)
Theorem activate_mismatch_unauthorized app env t h :
  jwtregexp_MatchString t = false \/ Hash t <> h ->
  answer (activate env t h app) = Unauthorized
  /\ status (answer (activate env t h app)) = StatusUnauthorized
  /\ after (activate env t h app) = app
  /\ calls (activate env t h app)
     = (if jwtregexp_MatchString t then [JwtHash t] else [])
  /\ forallb (fun k => negb (is_extract k)) (calls (activate env t h app))
     = true.
Proof.
  intros Hyp.
  destruct (jwtregexp_MatchString t) eqn:E.
  - destruct Hyp as [Hyp | Hyp]; [discriminate |].
    rewrite (activate_mismatch app env t h E Hyp). by repeat split.
  - rewrite (activate_no_match app env t h E). by repeat split.
Qed.

Lemma activate_invalid_token app env t h e :
  jwtregexp_MatchString t = true -> Hash t = h ->
  Extract t env = Err e ->
  activate env t h app = (Unauthorized, app, [JwtHash t; JwtExtract t]).
Proof.
  intros E Hh Hx. unfold activate. rewrite E. simpl.
  unfold bind, jwt_Hash, jwt_Extract.
  rewrite Hh, String.eqb_refl, Hx. reflexivity.
Qed.

Lemma activate_extracted app env t h u :
  jwtregexp_MatchString t = true -> Hash t = h ->
  Extract t env = Ok u ->
  activate env t h app =
  match IsPresent (db app) (Address u) with
  | (Err err, d1) =>
      (Internal_response err, with_db app d1,
       [JwtHash t; JwtExtract t; DbIsPresent (Address u)])
  | (Ok true, d1) =>
      (Conflict_response u, with_db app d1,
       [JwtHash t; JwtExtract t; DbIsPresent (Address u)])
  | (Ok false, d1) =>
      match IsPresent d1 (Sponsor u) with
      | (Err err, d2) =>
          (Internal_response err, with_db app d2,
           [JwtHash t; JwtExtract t; DbIsPresent (Address u);
            DbIsPresent (Sponsor u)])
      | (Ok false, d2) =>
          (Sponsor_response u, with_db app d2,
           [JwtHash t; JwtExtract t; DbIsPresent (Address u);
            DbIsPresent (Sponsor u)])
      | (Ok true, d2) =>
          match Save d2 u with
          | ((Some err, u'), d3) =>
              (Internal_response err, with_db app d3,
               [JwtHash t; JwtExtract t; DbIsPresent (Address u);
                DbIsPresent (Sponsor u); DbSave u])
          | ((None, u'), d3) =>
              (c_JSONUser StatusCreated u',
               with_c (with_db app d3)
                 (cache.Add (c app) (Address u') (Timestamp u')),
               [JwtHash t; JwtExtract t; DbIsPresent (Address u);
                DbIsPresent (Sponsor u); DbSave u;
                CacheAdd (Address u') (Timestamp u');
                Go (SendConfirmationEmail (Email u))])
          end
      end
  end.
Proof.
  intros E Hh Hx. unfold activate. rewrite E. simpl.
  unfold bind, jwt_Hash, jwt_Extract.
  rewrite Hh, String.eqb_refl, Hx. simpl.
  unfold db_IsPresent at 1. simpl.
  destruct (IsPresent (db app) (Address u)) as [[[|]|err] d1];
    try reflexivity.
  unfold db_IsPresent. simpl.
  destruct (IsPresent d1 (Sponsor u)) as [[[|]|err] d2]; try reflexivity.
  unfold db_Save. simpl.
  destruct (Save d2 u) as [[[err|] u'] d3]; reflexivity.
Qed.

(** C4.  A token that passes the fingerprint check and [Extract]:
    the first call on the store is the lookup of the identity, and
    the lookup of the referrer, when there is one, comes right after
    it.  When the store knows the identity the answer is Conflict
    (409) and the referrer is not looked up at all; so the answer is
    Conflict also when the store does not know the referrer. *)
Theorem activate_identity_before_referrer app env t h u :
  jwtregexp_MatchString t = true -> Hash t = h ->
  Extract t env = Ok u ->
  (exists rest,
      calls (activate env t h app)
      = JwtHash t :: JwtExtract t :: DbIsPresent (Address u) :: rest
      /\ (forallb (fun k => negb (on_db k)) rest = true
          \/ exists rest', rest = DbIsPresent (Sponsor u) :: rest'))
  /\ (forall d,
         IsPresent (db app) (Address u) = (Ok true, d) ->
         answer (activate env t h app) = Conflict_response u
         /\ status (answer (activate env t h app)) = StatusConflict
         /\ calls (activate env t h app)
            = [JwtHash t; JwtExtract t; DbIsPresent (Address u)])
  /\ (forall d d',
         IsPresent (db app) (Address u) = (Ok true, d) ->
         IsPresent d (Sponsor u) = (Ok false, d') ->
         status (answer (activate env t h app)) = StatusConflict
         /\ answer (activate env t h app) <> Sponsor_response u).
Proof.
  intros E Hh Hx. rewrite (activate_extracted app env t h u E Hh Hx).
  split; [| split].
  - destruct (IsPresent (db app) (Address u)) as [[[|]|err] d1];
      try (eexists; split; [reflexivity | by left]).
    destruct (IsPresent d1 (Sponsor u)) as [[[|]|err] d2];
      try (eexists; split; [reflexivity | right; by eexists]).
    destruct (Save d2 u) as [[[err|] u'] d3];
      eexists; (split; [reflexivity | right; by eexists]).
  - intros d Hd. rewrite Hd. by repeat split.
  - intros d d' Hd _. rewrite Hd. split; [reflexivity | discriminate].
Qed.

(** C6.  [activate] changes the presence cache on one path only:
    both lookups passed and [Save] returned no error; the cache then
    gains the address and timestamp of the saved record, and the
    call of [Add] follows the call of [Save].  On every other path
    (the answer is then not 201) the cache is what it was and [Add]
    is not called. *)
Theorem activate_cache_after_persist app env t h :
  (status (answer (activate env t h app)) <> StatusCreated ->
   c (after (activate env t h app)) = c app)
  /\ ((c (after (activate env t h app)) = c app
       /\ forallb (fun k => negb (on_cache k)) (calls (activate env t h app))
          = true
       /\ status (answer (activate env t h app)) <> StatusCreated)
      \/ (exists u u' d1 d2 d3,
             Extract t env = Ok u
             /\ IsPresent (db app) (Address u) = (Ok false, d1)
             /\ IsPresent d1 (Sponsor u) = (Ok true, d2)
             /\ Save d2 u = ((None, u'), d3)
             /\ db (after (activate env t h app)) = d3
             /\ c (after (activate env t h app))
                = cache.Add (c app) (Address u') (Timestamp u')
             /\ calls (activate env t h app)
                = [JwtHash t; JwtExtract t; DbIsPresent (Address u);
                   DbIsPresent (Sponsor u); DbSave u;
                   CacheAdd (Address u') (Timestamp u');
                   Go (SendConfirmationEmail (Email u))]
             /\ answer (activate env t h app) = c_JSONUser StatusCreated u')).
Proof.
  assert (Main :
    (c (after (activate env t h app)) = c app
     /\ forallb (fun k => negb (on_cache k)) (calls (activate env t h app))
        = true
     /\ status (answer (activate env t h app)) <> StatusCreated)
    \/ (exists u u' d1 d2 d3,
           Extract t env = Ok u
           /\ IsPresent (db app) (Address u) = (Ok false, d1)
           /\ IsPresent d1 (Sponsor u) = (Ok true, d2)
           /\ Save d2 u = ((None, u'), d3)
           /\ db (after (activate env t h app)) = d3
           /\ c (after (activate env t h app))
              = cache.Add (c app) (Address u') (Timestamp u')
           /\ calls (activate env t h app)
              = [JwtHash t; JwtExtract t; DbIsPresent (Address u);
                 DbIsPresent (Sponsor u); DbSave u;
                 CacheAdd (Address u') (Timestamp u');
                 Go (SendConfirmationEmail (Email u))]
           /\ answer (activate env t h app) = c_JSONUser StatusCreated u')).
  { destruct (jwtregexp_MatchString t) eqn:E.
    2: { rewrite (activate_no_match app env t h E). left. by repeat split. }
    destruct (decide (Hash t = h)) as [Hh | Hh].
    2: { rewrite (activate_mismatch app env t h E Hh). left. by repeat split. }
    destruct (Extract t env) as [u | e] eqn:Hx.
    2: { rewrite (activate_invalid_token app env t h e E Hh Hx).
         left. by repeat split. }
    rewrite (activate_extracted app env t h u E Hh Hx).
    destruct (IsPresent (db app) (Address u)) as [[[|]|err] d1] eqn:H1;
      try (left; by repeat split).
    destruct (IsPresent d1 (Sponsor u)) as [[[|]|err] d2] eqn:H2;
      try (left; by repeat split).
    destruct (Save d2 u) as [[[err|] u'] d3] eqn:H3;
      try (left; by repeat split).
    right. exists u, u', d1, d2, d3. by repeat split. }
  split; [| exact Main].
  intros Hs. destruct Main as [(Hc & _) | (u & u' & d1 & d2 & d3 & Hex)].
  - exact Hc.
  - destruct Hex as (_ & _ & _ & _ & _ & _ & _ & Ha).
    rewrite Ha in Hs. by destruct Hs.
Qed.

(** C5, as the code has it.  A token that passes the fingerprint check
    and [Extract], an identity that the store does not know and a
    referrer that it does not know either: the answer is 400 Bad Request
    with the message "sponsor address <referrer> not found".  That
    status differs from Conflict (409), from Unauthorized (401) and from
    412, and it is the status with which [register] answers a request
    that fails validation. *)
Theorem activate_unknown_referrer app env t h u d1 d2 :
  jwtregexp_MatchString t = true -> Hash t = h ->
  Extract t env = Ok u ->
  IsPresent (db app) (Address u) = (Ok false, d1) ->
  IsPresent d1 (Sponsor u) = (Ok false, d2) ->
  answer (activate env t h app) = Sponsor_response u
  /\ status (answer (activate env t h app)) = StatusBadRequest
  /\ status (answer (activate env t h app)) <> StatusConflict
  /\ status (answer (activate env t h app)) <> StatusUnauthorized
  /\ status (answer (activate env t h app)) <> StatusPreconditionFailed
  /\ c (after (activate env t h app)) = c app
  /\ (forall app' env' body e,
         ShouldBindJSON body = Err e ->
         status (answer (register env' body app'))
         = status (answer (activate env t h app))).
Proof.
  intros E Hh Hx H1 H2.
  rewrite (activate_extracted app env t h u E Hh Hx), H1, H2.
  repeat split; try reflexivity; try discriminate.
  intros app' env' body e Hb. unfold register. rewrite Hb. reflexivity.
Qed.

(** **** What [register] does on each of its paths *)

Lemma register_invalid app env body e :
  ShouldBindJSON body = Err e ->
  register env body app
  = (c_JSON StatusBadRequest (H_error (VError e)), app, []).
Proof. intros Hb. unfold register. rewrite Hb. reflexivity. Qed.

Lemma register_fault app env body u e :
  ShouldBindJSON body = Ok u -> Create u (env_now env) = Err e ->
  register env body app
  = (c_JSON StatusBadRequest (H_error (VError e)), app,
     [JwtCreate u (env_now env)]).
Proof.
  intros Hb Hc. unfold register. rewrite Hb.
  unfold bind, jwt_Create. rewrite Hc. reflexivity.
Qed.

Lemma register_minted app env body u token :
  ShouldBindJSON body = Ok u -> Create u (env_now env) = Ok token ->
  register env body app
  = (Accepted_response env token, app,
     [JwtCreate u (env_now env); JwtHash token;
      Go (SendActivationEmail (Email u) (generateSecuredLink token)
            (Hash token))]).
Proof.
  intros Hb Hc. unfold register. rewrite Hb.
  unfold bind, jwt_Create. rewrite Hc. reflexivity.
Qed.

Lemma Accepted_hash env token :
  exists hm,
    body (Accepted_response env token) = JSON hm
    /\ hm !! "hash" = Some (VString (Hash token)).
Proof.
  unfold Accepted_response. destruct (env_debug env); eexists; (split; [reflexivity |]).
  - by rewrite lookup_insert_ne, lookup_singleton_eq.
  - by rewrite lookup_singleton_eq.
Qed.

(** No string is itself followed by something. *)
Lemma append_longer (s r : string) (a : ascii) : s <> s +:+ String a r.
Proof.
  assert (Hlen : forall x y : string,
             String.length (x +:+ y) = (String.length x + String.length y)%nat).
  { induction x as [| b x IH]; intros y; simpl; [reflexivity |].
    by rewrite IH. }
  intros Heq. apply (f_equal String.length) in Heq.
  rewrite Hlen in Heq. simpl in Heq. lia.
Qed.

(** C8, as the code has it.  For a token minted at registration, the
    one mail handed to the notifier carries the link
    [https://unleak.trade/activate/<token>], whose last path segment is
    the raw token, and, next to the link, the fingerprint of the token.
    The link itself is not of the form
    [<base-URL>/activate/<token>/<fingerprint>], for any fingerprint. *)
Theorem register_activation_link app env body u token :
  ShouldBindJSON body = Ok u -> Create u (env_now env) = Ok token ->
  filter (fun k => is_go k = true) (calls (register env body app))
  = [Go (SendActivationEmail (Email u) (generateSecuredLink token)
           (Hash token))]
  /\ generateSecuredLink token = "https://unleak.trade" +:+ "/activate/" +:+ token
  /\ (forall fingerprint,
         generateSecuredLink token
         <> spec_link "https://unleak.trade" token fingerprint).
Proof.
  intros Hb Hc. rewrite (register_minted app env body u token Hb Hc).
  split; [reflexivity | split; [reflexivity |]].
  intros fp Heq. unfold generateSecuredLink, spec_link in Heq.
  simpl in Heq. injection Heq as Heq.
  exact (append_longer _ _ _ Heq).
Qed.

(** C9.  A register request whose claims pass validation: the handler
    makes no call on the store and leaves the application, the store
    with it, as it was; when a token is minted, the answer is 202 and
    its "hash" is the fingerprint of that token.  The handler reads
    nothing of the application, so registering the same claims again
    gives what a first registration at that instant gives, with a token
    of its own. *)
Theorem register_no_store app env body u :
  ShouldBindJSON body = Ok u ->
  after (register env body app) = app
  /\ db (after (register env body app)) = db app
  /\ forallb (fun k => negb (on_db k)) (calls (register env body app)) = true
  /\ (forall token,
         Create u (env_now env) = Ok token ->
         status (answer (register env body app)) = StatusAccepted
         /\ exists hm,
             api.body (answer (register env body app)) = JSON hm
             /\ hm !! "hash" = Some (VString (Hash token)))
  /\ (forall env',
         register env' body (after (register env body app))
         = register env' body app)
  /\ (forall env' token',
         Create u (env_now env') = Ok token' ->
         answer (register env' body (after (register env body app)))
         = Accepted_response env' token'
         /\ calls (register env' body (after (register env body app)))
            = [JwtCreate u (env_now env'); JwtHash token';
               Go (SendActivationEmail (Email u) (generateSecuredLink token')
                     (Hash token'))]).
Proof.
  intros Hb.
  assert (Hafter : after (register env body app) = app).
  { destruct (Create u (env_now env)) as [token | e] eqn:Hc.
    - by rewrite (register_minted app env body u token Hb Hc).
    - by rewrite (register_fault app env body u e Hb Hc). }
  rewrite Hafter.
  split; [reflexivity | split; [reflexivity | split; [| split; [| split]]]].
  - destruct (Create u (env_now env)) as [token | e] eqn:Hc.
    + by rewrite (register_minted app env body u token Hb Hc).
    + by rewrite (register_fault app env body u e Hb Hc).
  - intros token Hc. rewrite (register_minted app env body u token Hb Hc).
    split; [reflexivity | apply Accepted_hash].
  - reflexivity.
  - intros env' token' Hc.
    by rewrite (register_minted app env' body u token' Hb Hc).
Qed.

(** **** The middleware in front of every handler *)

Lemma Method_not_OPTIONS (o : Operation) :
  String.eqb (Method o) "OPTIONS" = false.
Proof. destruct o; reflexivity. Qed.

Lemma setupRouter_throttled app env req l :
  limited app env req = (false, l) ->
  setupRouter env req app
  = (add_headers cors_headers
       (c_JSON StatusTooManyRequests
          (<["ip" := VString (ClientIP req)]>
             (H_error (VString "Too Many Requests")))),
     with_rl app l,
     [RlGetAccess (ClientIP req); RlAllow (ClientIP req)]).
Proof.
  unfold limited. intros Hl.
  unfold setupRouter, chain, cors, limit, bind, ret, rl_GetAccess, rl_Allow.
  rewrite Method_not_OPTIONS. simpl. rewrite Hl. simpl.
  unfold with_rl. simpl. reflexivity.
Qed.

Lemma setupRouter_no_key app env req l :
  limited app env req = (true, l) ->
  (GetHeader req "UNLK-API-KEY" = ""
   \/ GetHeader req "UNLK-API-KEY" <> apiKey app) ->
  setupRouter env req app
  = (add_headers cors_headers Unauthorized,
     with_rl app l,
     [RlGetAccess (ClientIP req); RlAllow (ClientIP req)]).
Proof.
  unfold limited. intros Hl Hk.
  unfold setupRouter, chain, cors, limit, requireAPIKey, bind, ret, get,
    rl_GetAccess, rl_Allow.
  rewrite Method_not_OPTIONS. simpl. rewrite Hl. simpl.
  assert (Hc : String.eqb (GetHeader req "UNLK-API-KEY") ""
               || negb (String.eqb (GetHeader req "UNLK-API-KEY") (apiKey app))
               = true).
  { destruct Hk as [Hk | Hk].
    - rewrite Hk. reflexivity.
    - apply String.eqb_neq in Hk. rewrite Hk. apply orb_true_r. }
  rewrite Hc. simpl. unfold with_rl. simpl. reflexivity.
Qed.

Lemma setupRouter_admitted app env req l :
  limited app env req = (true, l) ->
  GetHeader req "UNLK-API-KEY" <> "" ->
  GetHeader req "UNLK-API-KEY" = apiKey app ->
  setupRouter env req app
  = (let x := handler env req (with_rl app l) in
     (add_headers cors_headers (answer x), after x,
      [RlGetAccess (ClientIP req); RlAllow (ClientIP req)] ++ calls x)).
Proof.
  unfold limited. intros Hl Hk Hk'.
  unfold setupRouter, chain, cors, limit, requireAPIKey, bind, ret, get,
    rl_GetAccess, rl_Allow.
  rewrite Method_not_OPTIONS. simpl. rewrite Hl. simpl.
  apply String.eqb_neq in Hk. rewrite Hk.
  rewrite Hk', String.eqb_refl. simpl.
  unfold with_rl. simpl.
  destruct (handler env req _) as [[r a] l0]. simpl.
  unfold add_headers. simpl. rewrite !app_nil_r. reflexivity.
Qed.

(** C10, as the code has it.  A request to any route of the group whose
    UNLK-API-KEY header is missing, empty or not the configured key: the
    only calls made are the two on the limiter, so no handler is
    reached; the store, the cache and the configuration are what they
    were; the answer is Unauthorized (401) when the limiter lets the
    request through and Too Many Requests (429) when it does not. The
    limiter itself has moved to the state its two calls give. *)
Theorem requireAPIKey_guards app env req :
  GetHeader req "UNLK-API-KEY" = ""
  \/ GetHeader req "UNLK-API-KEY" <> apiKey app ->
  calls (setupRouter env req app)
  = [RlGetAccess (ClientIP req); RlAllow (ClientIP req)]
  /\ after (setupRouter env req app)
     = with_rl app (limited app env req).2
  /\ db (after (setupRouter env req app)) = db app
  /\ c (after (setupRouter env req app)) = c app
  /\ apiKey (after (setupRouter env req app)) = apiKey app
  /\ ((limited app env req).1 = true ->
      answer (setupRouter env req app) = add_headers cors_headers Unauthorized
      /\ status (answer (setupRouter env req app)) = StatusUnauthorized)
  /\ ((limited app env req).1 = false ->
      status (answer (setupRouter env req app)) = StatusTooManyRequests).
Proof.
  intros Hk. destruct (limited app env req) as [[|] l] eqn:Hl.
  - rewrite (setupRouter_no_key app env req l Hl Hk).
    repeat split; intros; try reflexivity; discriminate.
  - rewrite (setupRouter_throttled app env req l Hl).
    repeat split; intros; try reflexivity; discriminate.
Qed.

End Facts.

End api_facts.

Module crypto_facts.
Import data crypto.

Section Facts.
Context `{Codec} `{Settings}.
Implicit Types (j : JWT) (b : JWTBase) (u : User) (t now : Time) (env : Env).

Lemma Family_eqb_refl (f : Family) : Family_eqb f f = true.
Proof. by destruct f. Qed.

Lemma Family_eqb_neq (f g : Family) : f <> g -> Family_eqb f g = false.
Proof. by destruct f, g. Qed.

Lemma eqb_empty_false (s : string) : s <> "" -> String.eqb s "" = false.
Proof. apply String.eqb_neq. Qed.

Lemma JWT_Extract_verifying j token env :
  JWT_Extract j token env
  = extract (verifying j).1 token (verifying j).2 env.
Proof. by destruct j. Qed.


(** What verification finds in a token that [create] has just made,
    under the key and the family of the method that signed it. *)
Lemma verified_created b u t token now :
  Signer_correct -> Codec_correct ->
  create b u t = Ok token ->
  verified (family (method b)) (k b) token now =
  if now <? t then inl NotYetValid
  else if t + fixedWindow <=? now then inl Expired
  else if (String.eqb (Address u) "" || String.eqb (Email u) ""
           || String.eqb (Sponsor u) "")%bool
  then inl MissingClaim
  else inr (stamp u t).
Proof.
  intros Hs Hc. unfold create.
  destruct (sign (method b) (k b) (stamp u t)) as [s | e] eqn:Hsign;
    [| discriminate].
  intros [= <-]. unfold verified. rewrite Hc. simpl.
  rewrite Family_eqb_refl. simpl.
  rewrite (Hs _ _ _ _ Hsign). simpl. reflexivity.
Qed.


(** Every way in which verification can fail. *)
Lemma verified_causes (T : Family) (key : Key) token now p :
  decode token = Some p ->
  (family (alg p) <> T
   \/ verify (alg p) key (claims p) (signature p) = false
   \/ ExpiresAt (claims p) <= now
   \/ now < NotBefore (claims p)
   \/ claim_address (claims p) = ""
   \/ claim_email (claims p) = ""
   \/ claim_sponsor (claims p) = "") ->
  exists f, verified T key token now = inl f.
Proof.
  intros Hd Hcause.
  destruct (verified T key token now) as [f | cl] eqn:Hv;
    [by exists f | exfalso].
  unfold verified in Hv. rewrite Hd in Hv.
  destruct (Family_eqb (family (alg p)) T) eqn:Hf; [| discriminate].
  simpl in Hv.
  destruct (verify (alg p) key (claims p) (signature p)) eqn:Hsig;
    [| discriminate]. simpl in Hv.
  destruct (Z.ltb_spec now (NotBefore (claims p))) as [| Hnbf];
    [discriminate |].
  destruct (Z.leb_spec (ExpiresAt (claims p)) now) as [| Hexp];
    [discriminate |].
  destruct (String.eqb_spec (claim_address (claims p)) "") as [| Ha];
    [discriminate |].
  destruct (String.eqb_spec (claim_email (claims p)) "") as [| He];
    [discriminate |].
  destruct (String.eqb_spec (claim_sponsor (claims p)) "") as [| Hp];
    [discriminate |].
  destruct Hcause as [Hc | [Hc | [Hc | [Hc | [Hc | [Hc | Hc]]]]]];
    try congruence; try lia.
  apply Family_eqb_neq in Hc. congruence.
Qed.

(** A token that is well signed and within its window, but lacks a
    required claim. *)
Lemma verified_missing_claim (T : Family) (key : Key) token now p :
  decode token = Some p ->
  family (alg p) = T ->
  verify (alg p) key (claims p) (signature p) = true ->
  NotBefore (claims p) <= now < ExpiresAt (claims p) ->
  (claim_address (claims p) = ""
   \/ claim_email (claims p) = ""
   \/ claim_sponsor (claims p) = "") ->
  verified T key token now = inl MissingClaim.
Proof.
  intros Hd Hf Hsig [Hnbf Hexp] Hempty.
  unfold verified. rewrite Hd, Hf, Family_eqb_refl, Hsig. simpl.
  destruct (Z.ltb_spec now (NotBefore (claims p))); [lia |].
  destruct (Z.leb_spec (ExpiresAt (claims p)) now); [lia |].
  destruct Hempty as [-> | [-> | ->]]; simpl;
    rewrite ?orb_true_r; reflexivity.
Qed.

(** C2.  Whatever the token and the instance, every error of [Extract]
    is [ErrInvalidToken], and every way verification can fail leads to
    it: a token that does not decode, one of another algorithm family,
    one whose signature does not verify under the key of the instance (a
    bad signature as well as another key), one that is expired or not
    yet valid, and one whose identity, contact or referrer is empty,
    also when it is correctly signed and within its window. *)
Theorem extract_failures_collapse j token env :
  (forall e, JWT_Extract j token env = Err e -> e = ErrInvalidToken)
  /\ (forall f,
         verified (verifying j).1 (verifying j).2 token (env_now env) = inl f ->
         JWT_Extract j token env = Err ErrInvalidToken)
  /\ (decode token = None -> JWT_Extract j token env = Err ErrInvalidToken)
  /\ (forall p,
         decode token = Some p ->
         (family (alg p) <> (verifying j).1
          \/ verify (alg p) (verifying j).2 (claims p) (signature p) = false
          \/ ExpiresAt (claims p) <= env_now env
          \/ env_now env < NotBefore (claims p)
          \/ claim_address (claims p) = ""
          \/ claim_email (claims p) = ""
          \/ claim_sponsor (claims p) = "") ->
         JWT_Extract j token env = Err ErrInvalidToken)
  /\ (forall p,
         decode token = Some p ->
         family (alg p) = (verifying j).1 ->
         verify (alg p) (verifying j).2 (claims p) (signature p) = true ->
         NotBefore (claims p) <= env_now env < ExpiresAt (claims p) ->
         (claim_address (claims p) = ""
          \/ claim_email (claims p) = ""
          \/ claim_sponsor (claims p) = "") ->
         verified (verifying j).1 (verifying j).2 token (env_now env)
         = inl MissingClaim
         /\ JWT_Extract j token env = Err ErrInvalidToken).
Proof.
  rewrite JWT_Extract_verifying.
  set (T := (verifying j).1). set (key := (verifying j).2).
  assert (Hcollapse : forall f, verified T key token (env_now env) = inl f ->
                                extract T token key env = Err ErrInvalidToken).
  { intros f Hf. unfold extract. by rewrite Hf. }
  split; [| split; [exact Hcollapse | split; [| split]]].
  - intros e. unfold extract.
    destruct (verified T key token (env_now env));
      [by intros [= <-] | discriminate].
  - intros Hd. apply (Hcollapse Malformed). unfold verified. by rewrite Hd.
  - intros p Hd Hcause.
    destruct (verified_causes T key token (env_now env) p Hd Hcause) as [f Hf].
    by apply (Hcollapse f).
  - intros p Hd Hf Hsig Hwin Hempty.
    pose proof (verified_missing_claim T key token (env_now env) p
                  Hd Hf Hsig Hwin Hempty) as Hv.
    split; [exact Hv | by apply (Hcollapse MissingClaim)].
Qed.

End Facts.

End crypto_facts.

(* --------------------------------------------------------------------- *)
(** ** The reference instances satisfy the laws                           *)
(* --------------------------------------------------------------------- *)
Module fixtures_facts.
Import data crypto fixtures.

Lemma append_assoc (x y z : string) : (x +:+ y) +:+ z = x +:+ (y +:+ z).
Proof.
  induction x as [| a x IH]; [reflexivity |].
  change (String a ((x +:+ y) +:+ z) = String a (x +:+ (y +:+ z))).
  by rewrite IH.
Qed.

Lemma unhex_byte_hi_lo (a : ascii) : unhex_byte (hi a) (lo a) = Some a.
Proof. destruct a as [[] [] [] [] [] [] [] []]; reflexivity. Qed.

Lemma unhex_hex (s : string) : unhex (hex s) = Some s.
Proof.
  induction s as [| a s IH]; [reflexivity |].
  change (unhex (hex (String a s)))
    with (c ← unhex_byte (hi a) (lo a); r ← unhex (hex s); Some (String c r)).
  by rewrite unhex_byte_hi_lo, IH.
Qed.

Lemma hexdigit_free (a c : ascii) :
  c = "."%char \/ c = "-"%char ->
  Ascii.eqb (hi a) c = false /\ Ascii.eqb (lo a) c = false.
Proof.
  intros [-> | ->];
    destruct a as [[] [] [] [] [] [] [] []]; split; reflexivity.
Qed.

Lemma free_hex (c : ascii) (s : string) :
  c = "."%char \/ c = "-"%char -> free c (hex s) = true.
Proof.
  intros Hc. induction s as [| a s IH]; [reflexivity |].
  destruct (hexdigit_free a c Hc) as [Hh Hl].
  change (negb (Ascii.eqb (hi a) c)
          && (negb (Ascii.eqb (lo a) c) && free c (hex s)) = true).
  by rewrite Hh, Hl, IH.
Qed.

Lemma cut_free (c : ascii) (x y : string) :
  free c x = true -> cut c (x +:+ String c y) = Some (x, y).
Proof.
  induction x as [| a x IH]; intros Hf.
  - change (cut c (String c y) = Some (EmptyString, y)).
    unfold cut. by rewrite Ascii.eqb_refl.
  - change (negb (Ascii.eqb a c) && free c x = true) in Hf.
    apply andb_true_iff in Hf as [Ha Hx].
    apply negb_true_iff in Ha.
    change (cut c (String a (x +:+ String c y)) = Some (String a x, y)).
    cbn [cut]. rewrite Ha, (IH Hx). reflexivity.
Qed.

Lemma undec_dec (z : Z) : undec (dec z) = Some z.
Proof.
  unfold undec, dec. rewrite NilEmpty.isi. simpl. by rewrite DecimalZ.of_to.
Qed.

Lemma of_name_name (a : SigningMethod) : of_name (name a) = Some a.
Proof. by destruct a. Qed.

Lemma free_name (a : SigningMethod) : free "." (name a) = true.
Proof. by destruct a. Qed.

(** The signature scheme verifies what it signs. *)
Lemma symbolic_correct : Signer_correct.
Proof.
  intros a k c s. simpl. intros [= <-]. apply String.eqb_refl.
Qed.

(** The serialisation decodes what it encodes. *)
Lemma hexcodec_correct : Codec_correct.
Proof.
  intros [a [ad em sp iss ex nb ia] sg].
  change (decode_token
            (name a +:+ "."
             +:+ (hex ad +:+ "-" +:+ hex em +:+ "-" +:+ hex sp +:+ "-"
                  +:+ hex iss +:+ "-" +:+ hex (dec ex) +:+ "-"
                  +:+ hex (dec nb) +:+ "-" +:+ hex (dec ia))
             +:+ "." +:+ hex sg)
          = Some (@mkParsed symbolic a (mkClaims ad em sp iss ex nb ia) sg)).
  rewrite !append_assoc.
  unfold decode_token.
  assert (Hdot : forall x y, cut "." (hex x +:+ "." +:+ y) = Some (hex x, y)).
  { intros x y. apply cut_free, free_hex. by left. }
  assert (Hdash : forall x y, cut "-" (hex x +:+ "-" +:+ y) = Some (hex x, y)).
  { intros x y. apply cut_free, free_hex. by right. }
  assert (Hname : forall y, cut "." (name a +:+ "." +:+ y) = Some (name a, y)).
  { intros y. apply cut_free, free_name. }
  rewrite Hname. cbn [mbind option_bind]. rewrite of_name_name.
  repeat (cbn [mbind option_bind];
          first [rewrite Hdash | rewrite Hdot];
          cbn [mbind option_bind]; rewrite unhex_hex;
          cbn [mbind option_bind]; rewrite ?undec_dec).
  repeat (cbn [mbind option_bind]; rewrite ?unhex_hex, ?undec_dec).
  reflexivity.
Qed.

End fixtures_facts.

(* --------------------------------------------------------------------- *)
(** ** The theorems at the values of the tests                            *)
(* --------------------------------------------------------------------- *)
Module examples.
Import data crypto limiter api fixtures.
Import api_facts crypto_facts fixtures_facts.

Ltac conjuncts :=
  repeat match goal with |- _ /\ _ => split end.

Lemma vt_matches : jwtregexp_MatchString vt = true.
Proof. vm_compute. reflexivity. Qed.

Lemma vt_created : JWT_Create jwt u issued = Ok vt.
Proof. vm_compute. reflexivity. Qed.

Lemma vt_extracted : Extract vt env0 = Ok extracted.
Proof. vm_compute. reflexivity. Qed.

Lemma u_complete : complete u.
Proof. repeat split; discriminate. Qed.

Lemma body0_bound : ShouldBindJSON body0 = Ok u.
Proof. vm_compute. reflexivity. Qed.

(** C1 at "valid token invalid hash" of TestActivate. *)
Lemma activate_mismatch_unauthorized_witness :
  (jwtregexp_MatchString vt = false \/ Hash vt <> "hA5h")
  /\ answer (activate env0 vt "hA5h" app0) = Unauthorized.
Proof.
  assert (Hyp : jwtregexp_MatchString vt = false \/ Hash vt <> "hA5h").
  { right. vm_compute. discriminate. }
  split; [exact Hyp |].
  exact (proj1 (activate_mismatch_unauthorized app0 env0 vt "hA5h" Hyp)).
Defined.

(** C4 at "address_ok_sponsor_nok" of TestActivate. *)
Lemma activate_identity_before_referrer_witness :
  (jwtregexp_MatchString vt = true /\ Hash vt = vh
   /\ Extract vt env0 = Ok extracted)
  /\ IsPresent (db app_known) (Address extracted) = (Ok true, db app_known)
  /\ IsPresent (db app_known) (Sponsor extracted) = (Ok false, db app_known)
  /\ status (answer (activate env0 vt vh app_known)) = StatusConflict.
Proof.
  assert (H1 : IsPresent (db app_known) (Address extracted)
               = (Ok true, db app_known)) by (vm_compute; reflexivity).
  assert (H2 : IsPresent (db app_known) (Sponsor extracted)
               = (Ok false, db app_known)) by (vm_compute; reflexivity).
  assert (Hh : Hash vt = vh) by (vm_compute; reflexivity).
  split; [exact (conj vt_matches (conj Hh vt_extracted)) |].
  split; [exact H1 | split; [exact H2 |]].
  exact (proj1 (proj2 (proj2
           (activate_identity_before_referrer app_known env0 vt vh extracted
              vt_matches Hh vt_extracted))
           (db app_known) (db app_known) H1 H2)).
Defined.

(** C5 as stated fails at "address_nok_sponsor_nok" of TestActivate: an
    unknown referrer is answered with the status of a request that
    fails validation, 400, and not with 412. *)
Lemma unknown_referrer_is_bad_request :
  IsPresent (db app_empty) (Sponsor extracted) = (Ok false, db app_empty)
  /\ ShouldBindJSON "" = Err (ErrorString "invalid request")
  /\ status (answer (register env0 "" app_empty)) = StatusBadRequest
  /\ status (answer (activate env0 vt vh app_empty)) = StatusBadRequest
  /\ ~ (status (answer (activate env0 vt vh app_empty))
        <> status (answer (register env0 "" app_empty)))
  /\ status (answer (activate env0 vt vh app_empty)) <> StatusPreconditionFailed.
Proof.
  conjuncts; try (vm_compute; reflexivity).
  - intros Hne. apply Hne. vm_compute. reflexivity.
  - vm_compute. discriminate.
Qed.

Lemma activate_unknown_referrer_witness :
  (jwtregexp_MatchString vt = true /\ Hash vt = vh
   /\ Extract vt env0 = Ok extracted
   /\ IsPresent (db app_empty) (Address extracted) = (Ok false, db app_empty)
   /\ IsPresent (db app_empty) (Sponsor extracted) = (Ok false, db app_empty))
  /\ answer (activate env0 vt vh app_empty) = Sponsor_response extracted.
Proof.
  assert (H1 : IsPresent (db app_empty) (Address extracted)
               = (Ok false, db app_empty)) by (vm_compute; reflexivity).
  assert (H2 : IsPresent (db app_empty) (Sponsor extracted)
               = (Ok false, db app_empty)) by (vm_compute; reflexivity).
  assert (Hh : Hash vt = vh) by (vm_compute; reflexivity).
  split.
  - exact (conj vt_matches (conj Hh (conj vt_extracted (conj H1 H2)))).
  - exact (proj1 (activate_unknown_referrer app_empty env0 vt vh extracted
                    (db app_empty) (db app_empty)
                    vt_matches Hh vt_extracted H1 H2)).
Defined.

(** C8 as stated fails at the registration of the user of the tests: the
    link handed to the notifier is not of the form
    [<base-URL>/activate/<token>/<fingerprint>]. *)
Lemma link_without_fingerprint :
  calls (register env0 body0 app0)
  = [JwtCreate u issued; JwtHash vt;
     Go (SendActivationEmail email (generateSecuredLink vt) vh)]
  /\ generateSecuredLink vt <> spec_link "https://unleak.trade" vt vh.
Proof.
  split; [vm_compute; reflexivity |].
  intros Heq. apply (f_equal String.length) in Heq.
  vm_compute in Heq. discriminate.
Qed.

Lemma register_activation_link_witness :
  (ShouldBindJSON body0 = Ok u /\ Create u (env_now env0) = Ok vt)
  /\ filter (fun k => is_go k = true) (calls (register env0 body0 app0))
     = [Go (SendActivationEmail (Email u) (generateSecuredLink vt) (Hash vt))].
Proof.
  split; [split; [exact body0_bound | exact vt_created] |].
  exact (proj1 (register_activation_link app0 env0 body0 u vt
                  body0_bound vt_created)).
Defined.

(** C9 at "valid user" of TestRegister. *)
Lemma register_no_store_witness :
  ShouldBindJSON body0 = Ok u
  /\ after (register env0 body0 app0) = app0.
Proof.
  split; [exact body0_bound |].
  exact (proj1 (register_no_store app0 env0 body0 u body0_bound)).
Defined.

(** C10 as stated fails under the limiter of [newApp]: a request
    without a key moves the limiter, and the eleventh such request in a
    row is answered 429, not 401. *)
Lemma keyless_request_throttled :
  GetHeader keyless "UNLK-API-KEY" = ""
  /\ entries (rl app_limited) !! ClientIP keyless = None
  /\ entries (rl (after (setupRouter env0 keyless app_limited)))
       !! ClientIP keyless
     = Some {| tokens := 90; refilled := issued; lastAccess := issued |}
  /\ status (answer (setupRouter env0 keyless (served 9))) = StatusUnauthorized
  /\ status (answer (setupRouter env0 keyless (served 10)))
     = StatusTooManyRequests
  /\ status (answer (setupRouter env0 keyless (served 10)))
     <> StatusUnauthorized.
Proof.
  conjuncts; try (vm_compute; reflexivity).
  vm_compute. discriminate.
Qed.

Lemma requireAPIKey_guards_witness :
  (GetHeader keyless "UNLK-API-KEY" = ""
   \/ GetHeader keyless "UNLK-API-KEY" <> apiKey app0)
  /\ calls (setupRouter env0 keyless app0)
     = [RlGetAccess (ClientIP keyless); RlAllow (ClientIP keyless)].
Proof.
  assert (Hyp : GetHeader keyless "UNLK-API-KEY" = ""
                \/ GetHeader keyless "UNLK-API-KEY" <> apiKey app0).
  { left. vm_compute. reflexivity. }
  split; [exact Hyp |].
  exact (proj1 (requireAPIKey_guards app0 env0 keyless Hyp)).
Defined.


(** C2 at "token without address" of TestExtractHMAC, at the token of
    another instance of TestForgedToken, at a token of the other family
    and at the token of the tests once its window has passed. *)
Lemma extract_failures_collapse_witness :
  (verified HMAC secret vt_without_address (env_now env0) = inl MissingClaim
   /\ JWT_Extract jwt vt_without_address env0 = Err ErrInvalidToken)
  /\ (verified HMAC secret vt_forged (env_now env0) = inl BadSignature
      /\ JWT_Extract jwt vt_forged env0 = Err ErrInvalidToken)
  /\ (verified HMAC secret vt_ecdsa (env_now env0) = inl WrongAlgorithm
      /\ JWT_Extract jwt vt_ecdsa env0 = Err ErrInvalidToken)
  /\ (verified HMAC secret vt (issued + fixedWindow) = inl Expired
      /\ JWT_Extract jwt vt (at_instant (issued + fixedWindow))
         = Err ErrInvalidToken)
  /\ (verified HMAC secret "not.a.token" (env_now env0) = inl Malformed
      /\ JWT_Extract jwt "not.a.token" env0 = Err ErrInvalidToken).
Proof.
  assert (H1 : verified HMAC secret vt_without_address (env_now env0)
               = inl MissingClaim) by (vm_compute; reflexivity).
  assert (H2 : verified HMAC secret vt_forged (env_now env0)
               = inl BadSignature) by (vm_compute; reflexivity).
  assert (H3 : verified HMAC secret vt_ecdsa (env_now env0)
               = inl WrongAlgorithm) by (vm_compute; reflexivity).
  assert (H4 : verified HMAC secret vt (issued + fixedWindow) = inl Expired)
    by (vm_compute; reflexivity).
  assert (H5 : verified HMAC secret "not.a.token" (env_now env0)
               = inl Malformed) by (vm_compute; reflexivity).
  pose (collapse := fun token env =>
          proj1 (proj2 (extract_failures_collapse jwt token env))).
  exact (conj (conj H1 (collapse vt_without_address env0 _ H1))
           (conj (conj H2 (collapse vt_forged env0 _ H2))
              (conj (conj H3 (collapse vt_ecdsa env0 _ H3))
                 (conj (conj H4
                          (collapse vt (at_instant (issued + fixedWindow)) _ H4))
                    (conj H5 (collapse "not.a.token" env0 _ H5)))))).
Defined.

(** The path of [activate] on which the cache changes, at "valid
    token+hash" of TestActivate. *)
Example activate_created :
  status (answer (activate env0 vt vh app0)) = StatusCreated
  /\ cache.IsPresent (c app0) address = false
  /\ cache.IsPresent (c (after (activate env0 vt vh app0))) address = true
  /\ calls (activate env0 vt vh app0)
     = [JwtHash vt; JwtExtract vt; DbIsPresent address; DbIsPresent sponsor;
        DbSave extracted; CacheAdd address (env_millis env0);
        Go (SendConfirmationEmail email)].
Proof. conjuncts; vm_compute; reflexivity. Qed.

End examples.

(* ===================================================================== *)
(** * Part III: further properties of the code                            *)
(* ===================================================================== *)

Module cache_more.
Import cache.

(** X1.  A new cache holds no key; after [Add] of a key, [IsPresent]
    answers true on that key with the timestamp given, and answers on
    every other key what it answered before. *)
Theorem Add_then_IsPresent (c : Cache) (k k' : string) (ts : Z) :
  IsPresent New k' = false
  /\ IsPresent (Add c k ts) k = true
  /\ m (Add c k ts) !! k = Some ts
  /\ (k' <> k -> IsPresent (Add c k ts) k' = IsPresent c k'
                 /\ m (Add c k ts) !! k' = m c !! k').
Proof.
  split; [apply cache_facts.IsPresent_New |].
  unfold IsPresent, Add; simpl. rewrite lookup_insert_eq.
  split; [reflexivity | split; [reflexivity |]].
  intros Hne. by rewrite lookup_insert_ne.
Qed.

(** X2.  [Add] overwrites: of two timestamps added under one key the
    later one stays; and two [Add]s under different keys give the same
    cache in either order. *)
Theorem Add_overwrites_and_commutes (c : Cache) (k1 k2 : string) (t1 t2 : Z) :
  Add (Add c k1 t1) k1 t2 = Add c k1 t2
  /\ (k1 <> k2 -> Add (Add c k1 t1) k2 t2 = Add (Add c k2 t2) k1 t1).
Proof.
  unfold Add; simpl. split.
  - by rewrite insert_insert_eq.
  - intros Hne. f_equal. by apply insert_insert_ne.
Qed.

(** X3.  After [Fill] with an entry set and then [Add] of a key, the
    keys present are those of the entry set and the added key, whatever
    the cache held before [Fill]. *)
Theorem Fill_then_Add (c : Cache) (entries : option (gmap string Z))
    (k k' : string) (ts : Z) :
  IsPresent (Add (Fill c entries) k ts) k' = true
  <-> k' = k \/ k' ∈ dom (default ∅ entries).
Proof.
  rewrite cache_facts.IsPresent_true_iff.
  unfold Add, Fill; simpl. rewrite dom_insert_L.
  destruct entries as [e |]; simpl; set_solver.
Qed.

End cache_more.

Module cacheref_facts.
Import cacheref.

Lemma make_fresh (h : Heap) :
  (fst (make h) ∉ dom h)
  /\ (snd (make h)) !! (fst (make h)) = Some ∅
  /\ (forall l, l ∈ dom h -> (snd (make h)) !! l = h !! l).
Proof.
  unfold make; simpl. pose proof (is_fresh (dom h)) as Hf.
  split; [exact Hf | split; [apply lookup_insert_eq |]].
  intros l Hl. apply lookup_insert_ne. intros Heq. apply Hf. by rewrite Heq.
Qed.

(** X4.  [Fill] with a map of the caller stores that very map: the heap
    is unchanged, the cache answers from the caller's map, a later
    assignment of the caller to its map shows in [IsPresent], and a
    later [Add] on the cache shows in the caller's map. *)
Theorem Fill_shares_the_map (h : Heap) (c : Cache) (l : positive)
    (e : gmap string Z) (k k' : string) (ts : Z) :
  h !! l = Some e ->
  (snd (Fill h c (Some l))) = h
  /\ m (fst (Fill h c (Some l))) = Some l
  /\ (IsPresent h (fst (Fill h c (Some l))) k' = true <-> k' ∈ dom e)
  /\ (exists h', mapassign h (Some l) k ts = Some h'
                 /\ IsPresent h' (fst (Fill h c (Some l))) k = true)
  /\ (exists h', Add h (fst (Fill h c (Some l))) k ts = Some h'
                 /\ h' !! l = Some (<[k := ts]> e)
                 /\ mapaccess h' (Some l) k = true).
Proof.
  intros Hl. simpl.
  split; [reflexivity | split; [reflexivity | split; [| split]]].
  - unfold IsPresent, mapaccess; simpl. rewrite Hl.
    rewrite bool_decide_eq_true. by rewrite elem_of_dom.
  - unfold mapassign, IsPresent, mapaccess; simpl. rewrite Hl; simpl.
    eexists. split; [reflexivity |].
    rewrite lookup_insert_eq. rewrite bool_decide_eq_true.
    by rewrite lookup_insert_eq.
  - unfold Add, mapassign, mapaccess; simpl. rewrite Hl; simpl.
    eexists. split; [reflexivity |].
    rewrite lookup_insert_eq. split; [reflexivity |].
    rewrite bool_decide_eq_true. by rewrite lookup_insert_eq.
Qed.

(** X5.  [Fill] with [nil] gives the cache a map of its own: empty, at
    an address that no map had before, with every other map left as it
    was; so an assignment to any map that existed before does not show
    in the cache. *)
Theorem Fill_nil_is_fresh (h : Heap) (c : Cache) (l0 : positive)
    (k k' : string) (ts : Z) :
  exists l,
    m (fst (Fill h c None)) = Some l
    /\ (l ∉ dom h)
    /\ (snd (Fill h c None)) !! l = Some ∅
    /\ (forall l', l' ∈ dom h -> (snd (Fill h c None)) !! l' = h !! l')
    /\ IsPresent (snd (Fill h c None)) (fst (Fill h c None)) k' = false
    /\ (forall h',
           l0 ∈ dom h ->
           mapassign (snd (Fill h c None)) (Some l0) k ts = Some h' ->
           IsPresent h' (fst (Fill h c None)) k' = false).
Proof.
  destruct (make_fresh h) as (Hfresh & Hnew & Hold).
  exists (fst (make h)). unfold Fill.
  destruct (make h) as [l h1] eqn:Hm. simpl in *.
  split; [reflexivity | split; [exact Hfresh | split; [exact Hnew |]]].
  split; [exact Hold | split].
  - unfold IsPresent, mapaccess; simpl. rewrite Hnew.
    apply bool_decide_eq_false. rewrite lookup_empty. by intros [? ?].
  - intros h' Hl0. unfold mapassign; simpl.
    destruct (h1 !! l0) as [e0 |] eqn:He0; simpl; [| discriminate].
    intros [= <-].
    unfold IsPresent, mapaccess; simpl.
    rewrite lookup_insert_ne by (intros ->; by apply Hfresh).
    rewrite Hnew.
    apply bool_decide_eq_false. rewrite lookup_empty. by intros [? ?].
Qed.

(** X6.  On a cache whose map is allocated, the operations on the heap
    do what the operations on [cache.Cache] do on its contents: [New]
    makes the empty cache, [IsPresent] answers alike, [Add] does not
    panic and adds the entry, and [Fill] gives the entries of the map
    it is handed, or none for [nil]; the cache stays allocated. *)
Theorem heap_operations_refine (h : Heap) (c : Cache) (k : string) (ts : Z) :
  (contents (snd (New h)) (fst (New h)) = cache.New /\ allocated (snd (New h)) (fst (New h)))
  /\ (contents (snd (Fill h c None)) (fst (Fill h c None))
      = cache.Fill (contents h c) None
      /\ allocated (snd (Fill h c None)) (fst (Fill h c None)))
  /\ (forall l e,
         h !! l = Some e ->
         contents (snd (Fill h c (Some l))) (fst (Fill h c (Some l)))
         = cache.Fill (contents h c) (Some e)
         /\ allocated (snd (Fill h c (Some l))) (fst (Fill h c (Some l))))
  /\ (allocated h c ->
      IsPresent h c k = cache.IsPresent (contents h c) k
      /\ exists h', Add h c k ts = Some h'
                    /\ contents h' c = cache.Add (contents h c) k ts
                    /\ allocated h' c).
Proof.
  destruct (make_fresh h) as (Hfresh & Hnew & Hold).
  assert (Hmake : contents (snd (make h)) {| m := Some (fst (make h)) |} = cache.New
                  /\ allocated (snd (make h)) {| m := Some (fst (make h)) |}).
  { split.
    - unfold contents. cbn -[make]. by rewrite Hnew.
    - exists (fst (make h)). split; [reflexivity |].
      apply elem_of_dom. by rewrite Hnew. }
  split; [| split; [| split]].
  - unfold New. by destruct (make h).
  - unfold Fill. by destruct (make h).
  - intros l e Hl. split.
    + unfold contents, Fill, cache.Fill. cbn [fst snd m mbind option_bind].
      by rewrite Hl.
    + exists l. split; [reflexivity |]. apply elem_of_dom. simpl.
      by rewrite Hl.
  - intros (l & Hm & Hdom). apply elem_of_dom in Hdom as [e He].
    split.
    + unfold IsPresent, mapaccess, cache.IsPresent, contents; simpl.
      rewrite Hm; simpl. rewrite He; simpl.
      destruct (e !! k) eqn:Hk.
      * apply bool_decide_eq_true. by eexists.
      * apply bool_decide_eq_false. by intros [? ?].
    + unfold Add, mapassign. rewrite Hm; simpl. rewrite He; simpl.
      eexists. split; [reflexivity | split].
      * unfold contents, cache.Add; simpl. rewrite Hm; simpl.
        rewrite lookup_insert_eq, He. reflexivity.
      * exists l. split; [exact Hm |].
        apply elem_of_dom. rewrite lookup_insert_eq. by eexists.
Qed.

End cacheref_facts.

Module main_facts.
Import data crypto limiter api.

(** The timestamp that [users_map] keeps for an address is that of the
    last user of the list with that address. *)
Lemma users_map_lookup (users : list User) (a : string) :
  users_map users !! a
  = Timestamp <$> last (filter (fun u => Address u = a) users).
Proof.
  unfold users_map.
  induction users as [| u users IH] using rev_ind; [reflexivity |].
  rewrite foldl_app, filter_app, last_app. simpl.
  rewrite filter_cons, filter_nil.
  destruct (decide (Address u = a)) as [<- | Hne]; simpl.
  - by rewrite lookup_insert_eq.
  - by rewrite lookup_insert_ne.
Qed.

Lemma users_map_dom (users : list User) (a : string) :
  a ∈ dom (users_map users) <-> a ∈ Address <$> users.
Proof.
  rewrite elem_of_dom, users_map_lookup, list_elem_of_fmap.
  rewrite fmap_is_Some, last_is_Some. split.
  - intros Hne.
    destruct (filter (fun u => Address u = a) users) as [| u l] eqn:Hf; [done |].
    assert (Hu : u ∈ filter (fun u => Address u = a) users) by (rewrite Hf; left).
    apply list_elem_of_filter in Hu as [Ha Hu]. by exists u.
  - intros (u & -> & Hu) Hnil.
    by apply (filter_nil_not_elem_of _ _ u Hnil).
Qed.

Section Facts.
Context {S L : Type} `{!DB S} `{!Limiter L} `{!Token} `{!Runtime}.
Implicit Types (app : App S L) (env : Env).

(** X7.  [initCache] panics exactly when the store fails to list its
    users.  Otherwise it replaces the cache, whatever it held, by one in
    which an address is present exactly when it is the address of a
    listed user, with the timestamp of the last listed user of that
    address; the limiter and the configuration are untouched. *)
Theorem initCache_loads_the_store app (a : string) :
  match List (db app) [] with
  | (Err _, _) => initCache app = inl "error loading users list from DB"
  | (Ok users, d) =>
      exists app',
        initCache app = inr app'
        /\ db app' = d /\ rl app' = rl app /\ apiKey app' = apiKey app
        /\ secpath1 app' = secpath1 app /\ secpath2 app' = secpath2 app
        /\ (cache.IsPresent (c app') a = true <-> a ∈ Address <$> users)
        /\ cache.m (c app') !! a
           = Timestamp <$> last (filter (fun u => Address u = a) users)
  end.
Proof.
  unfold initCache. destruct (List (db app) []) as [[users | e] d];
    [| reflexivity].
  eexists. split; [reflexivity |]. simpl.
  do 5 (split; [reflexivity |]).
  split; [| apply users_map_lookup].
  rewrite cache_facts.IsPresent_true_iff. apply users_map_dom.
Qed.

(** X8.  Once [initCache] has run, check-wallet answers 200 with
    registered true for the address of every user the store listed, and
    404 with registered false for every other address, without a call on
    the store. *)
Theorem initCache_then_checkWallet app app' (users : list User) d (a : string) :
  List (db app) [] = (Ok users, d) ->
  initCache app = inr app' ->
  after (checkWallet a app') = app'
  /\ calls (checkWallet a app') = [CacheIsPresent a]
  /\ (a ∈ Address <$> users ->
      answer (checkWallet a app')
      = c_JSON StatusOK {[ "registered" := VBool true ]})
  /\ (a ∉ Address <$> users ->
      answer (checkWallet a app')
      = c_JSON StatusNotFound {[ "registered" := VBool false ]}).
Proof.
  intros HList Hinit.
  pose proof (initCache_spec_aux := users_map_dom users a).
  unfold initCache in Hinit. rewrite HList in Hinit.
  injection Hinit as <-.
  unfold checkWallet, bind, c_IsPresent, ret. simpl.
  set (p := cache.IsPresent _ a).
  assert (Hp : p = true <-> a ∈ Address <$> users).
  { unfold p. rewrite cache_facts.IsPresent_true_iff. simpl.
    exact initCache_spec_aux. }
  destruct p; simpl;
    (split; [reflexivity | split; [reflexivity |]]);
    split; intros Ha; try reflexivity.
  - exfalso. apply Ha. by apply Hp.
  - apply Hp in Ha. discriminate.
Qed.

End Facts.

Section Setup.
Context `{Signer}.

(** X24.  [setup] succeeds exactly when the encryption key, the two
    secure paths and the API key are set in the environment, and then
    takes them from there, so that the API key it leaves is not empty;
    the table name is the one of the environment, or Waitlist when
    that is not set; the four token services are registered under
    HS512, HS256, ES256 and ES512.  When only the second secure path is
    missing, the panic names the first. *)
Theorem setup_reads_the_environment (k32 k16 : Key) (es256 es512 : JWT)
    (Getenv : string -> string) :
  ((exists v, setup k32 k16 es256 es512 Getenv = inr v)
   <-> Getenv "UNLEAKTRADE_ENCRYPTION_KEY" <> ""
       /\ Getenv "UNLEAKTRADE_API_SECURE_PATH1" <> ""
       /\ Getenv "UNLEAKTRADE_API_SECURE_PATH2" <> ""
       /\ Getenv "UNLEAKTRADE_WAITLIST_API_KEY" <> "")
  /\ (forall v,
         setup k32 k16 es256 es512 Getenv = inr v ->
         var_apiKey v = Getenv "UNLEAKTRADE_WAITLIST_API_KEY"
         /\ var_apiKey v <> ""
         /\ ek v = Getenv "UNLEAKTRADE_ENCRYPTION_KEY"
         /\ var_secpath1 v = Getenv "UNLEAKTRADE_API_SECURE_PATH1"
         /\ var_secpath2 v = Getenv "UNLEAKTRADE_API_SECURE_PATH2"
         /\ tableName v
            = (if String.eqb (Getenv "UNLEAKTRADE_WAITLIST_TABLE_NAME") ""
               then "Waitlist"
               else Getenv "UNLEAKTRADE_WAITLIST_TABLE_NAME")
         /\ jwts v !! "HS512" = Some (NewJWTHS512 k32)
         /\ jwts v !! "HS256" = Some (NewJWTHS256 k16)
         /\ jwts v !! "ES256" = Some es256
         /\ jwts v !! "ES512" = Some es512)
  /\ (Getenv "UNLEAKTRADE_ENCRYPTION_KEY" <> "" ->
      Getenv "UNLEAKTRADE_API_SECURE_PATH1" <> "" ->
      Getenv "UNLEAKTRADE_API_SECURE_PATH2" = "" ->
      setup k32 k16 es256 es512 Getenv = inl "secure path #1 must be set").
Proof.
  unfold setup.
  destruct (String.eqb_spec (Getenv "UNLEAKTRADE_ENCRYPTION_KEY") "")
    as [Hek | Hek];
    [| destruct (String.eqb_spec (Getenv "UNLEAKTRADE_API_SECURE_PATH1") "")
         as [Hp1 | Hp1];
       [| destruct (String.eqb_spec (Getenv "UNLEAKTRADE_API_SECURE_PATH2") "")
            as [Hp2 | Hp2];
          [| destruct (String.eqb_spec
                         (Getenv "UNLEAKTRADE_WAITLIST_API_KEY") "")
               as [Hk | Hk]]]];
    (split; [split; [intros [v Hv]; try discriminate | intros (? & ? & ? & ?)]
            | split; [intros v Hv; try discriminate | intros; try done]]);
    try done; try (by eexists).
  injection Hv as <-. simpl.
  do 5 (split; [done |]).
  split; [by destruct (String.eqb _ "") |].
  split; [by do 3 (rewrite lookup_insert_ne by done); rewrite lookup_insert_eq |].
  split; [by do 2 (rewrite lookup_insert_ne by done); rewrite lookup_insert_eq |].
  split; [by rewrite lookup_insert_ne, lookup_insert_eq |].
  by rewrite lookup_insert_eq.
Qed.

End Setup.

End main_facts.

Module api_more.
Import data crypto limiter api api_facts.

Lemma substring_all (s : string) : substring 0 (String.length s) s = s.
Proof. induction s as [| a s IH]; [reflexivity |]. simpl. by rewrite IH. Qed.

(** X9.  The activation link determines the token: the token is what
    follows the thirty characters of the prefix, so two tokens with the
    same link are the same token. *)
Theorem generateSecuredLink_token (t1 t2 : string) :
  substring 30 (String.length t1) (generateSecuredLink t1) = t1
  /\ (generateSecuredLink t1 = generateSecuredLink t2 <-> t1 = t2).
Proof.
  split.
  - unfold generateSecuredLink.
    change (substring 0 (String.length t1) t1 = t1). apply substring_all.
  - split; [| by intros ->].
    unfold generateSecuredLink. intros Heq.
    simpl in Heq. by injection Heq.
Qed.

Section Facts.
Context {S L : Type} `{!DB S} `{!Limiter L} `{!Token} `{!Runtime}.
Implicit Types (app : App S L) (env : Env) (t h : string) (u : User).

(** Every path of [activate], with what it returns on that path in
    place of the call. *)
Ltac activate_paths app env t h :=
  let E := fresh "E" in
  let Hh := fresh "Hh" in
  let Hx := fresh "Hx" in
  let u := fresh "u" in
  let e := fresh "e" in
  destruct (jwtregexp_MatchString t) eqn:E;
    [ destruct (decide (Hash t = h)) as [Hh | Hh];
      [ destruct (Extract t env) as [u | e] eqn:Hx;
        [ rewrite (activate_extracted app env t h u E Hh Hx);
          let d1 := fresh "d1" in
          let H1 := fresh "H1" in
          destruct (IsPresent (db app) (Address u)) as [[[|]|?err] d1] eqn:H1;
          [ | let d2 := fresh "d2" in
              let H2 := fresh "H2" in
              destruct (IsPresent d1 (Sponsor u)) as [[[|]|?err] d2] eqn:H2;
              [ let d3 := fresh "d3" in
                let H3 := fresh "H3" in
                let u' := fresh "u'" in
                destruct (Save d2 u) as [[[?err|] u'] d3] eqn:H3 | | ]
            | ]
        | rewrite (activate_invalid_token app env t h e E Hh Hx) ]
      | rewrite (activate_mismatch app env t h E Hh) ]
    | rewrite (activate_no_match app env t h E) ].

(** X10.  check-wallet answers from the cache alone: 200 with
    registered true when the cache holds the address, 404 with
    registered false when it does not; it makes no call on the store and
    leaves the application as it was. *)
Theorem checkWallet_reflects_cache app (a : string) :
  after (checkWallet a app) = app
  /\ calls (checkWallet a app) = [CacheIsPresent a]
  /\ (status (answer (checkWallet a app)) = StatusOK
      <-> a ∈ dom (cache.m (c app)))
  /\ answer (checkWallet a app)
     = (if cache.IsPresent (c app) a
        then c_JSON StatusOK {[ "registered" := VBool true ]}
        else c_JSON StatusNotFound {[ "registered" := VBool false ]}).
Proof.
  unfold checkWallet, bind, c_IsPresent, ret. simpl.
  rewrite <- cache_facts.IsPresent_true_iff.
  destruct (cache.IsPresent (c app) a); simpl;
    (split; [reflexivity | split; [reflexivity | split; [| reflexivity]]]);
    split; intros Hs; try reflexivity; discriminate.
Qed.

(** X11.  After an [activate] that answers 201, check-wallet answers
    200 for the address of the record in the answer, and answers for
    every other address what it answered before. *)
Theorem activate_then_checkWallet app env t h :
  status (answer (activate env t h app)) = StatusCreated ->
  exists u',
    answer (activate env t h app) = c_JSONUser StatusCreated u'
    /\ status (answer (checkWallet (Address u') (after (activate env t h app))))
       = StatusOK
    /\ (forall a, a <> Address u' ->
                  answer (checkWallet a (after (activate env t h app)))
                  = answer (checkWallet a app)).
Proof.
  activate_paths app env t h; try discriminate.
  intros _. exists u'. split; [reflexivity |].
  unfold checkWallet, bind, c_IsPresent, ret. simpl.
  split.
  - rewrite cache_facts.IsPresent_Add. by rewrite decide_True.
  - intros a Ha. rewrite cache_facts.IsPresent_Add.
    rewrite decide_False by congruence.
    by destruct (cache.IsPresent (c app) a).
Qed.

(** X12.  [requireAPIKey] lets a request through exactly when its
    UNLK-API-KEY header is not empty and equals the configured key;
    otherwise it aborts with Unauthorized.  So with an empty configured
    key no request gets through.  It changes nothing and calls
    nothing. *)
Theorem requireAPIKey_passes_iff app env (req : Request) :
  after (requireAPIKey env req app) = app
  /\ calls (requireAPIKey env req app) = []
  /\ (answer (requireAPIKey env req app) = Next []
      <-> GetHeader req "UNLK-API-KEY" <> ""
          /\ GetHeader req "UNLK-API-KEY" = apiKey app)
  /\ (answer (requireAPIKey env req app) = Next []
      \/ answer (requireAPIKey env req app) = Abort Unauthorized)
  /\ (apiKey app = "" ->
      answer (requireAPIKey env req app) = Abort Unauthorized)
  /\ (apiKey app <> "" ->
      (answer (requireAPIKey env req app) = Next []
       <-> GetHeader req "UNLK-API-KEY" = apiKey app)).
Proof.
  assert (Hlast : forall P Q : Prop,
             (P <-> GetHeader req "UNLK-API-KEY" <> ""
                    /\ GetHeader req "UNLK-API-KEY" = apiKey app) ->
             (Q <-> (apiKey app <> "" ->
                     (P <-> GetHeader req "UNLK-API-KEY" = apiKey app))) ->
             Q).
  { intros P Q HP HQ. apply HQ. intros Hne. rewrite HP.
    split; [by intros [_ ?] | intros Hk; split; [congruence | exact Hk]]. }
  cut (after (requireAPIKey env req app) = app
       /\ calls (requireAPIKey env req app) = []
       /\ (answer (requireAPIKey env req app) = Next []
           <-> GetHeader req "UNLK-API-KEY" <> ""
               /\ GetHeader req "UNLK-API-KEY" = apiKey app)
       /\ (answer (requireAPIKey env req app) = Next []
           \/ answer (requireAPIKey env req app) = Abort Unauthorized)
       /\ (apiKey app = "" ->
           answer (requireAPIKey env req app) = Abort Unauthorized)).
  { intros (H1 & H2 & H3 & H4 & H5).
    do 5 (split; [assumption |]).
    exact (Hlast _ _ H3 (iff_refl _)). }
  unfold requireAPIKey, bind, get, ret. simpl.
  destruct (String.eqb_spec (GetHeader req "UNLK-API-KEY") "") as [He | He];
    destruct (String.eqb_spec (GetHeader req "UNLK-API-KEY") (apiKey app))
      as [Hk | Hk]; simpl;
    (split; [reflexivity | split; [reflexivity |]]).
  - split; [| split; [by right | done]].
    split; [discriminate | by intros [? _]].
  - split; [| split; [by right | done]].
    split; [discriminate | by intros [? _]].
  - split; [| split; [by left | congruence]]. by split.
  - split; [| split; [by right | done]].
    split; [discriminate | by intros [_ ?]].
Qed.

(** X13.  Every answer of the group carries the four CORS headers in
    front of its other headers: the answer of a handler as well as the
    401 of [requireAPIKey] and the 429 of [limit]. *)
Theorem setupRouter_cors_headers app env (req : Request) :
  exists rest,
    headers (answer (setupRouter env req app)) = cors_headers ++ rest.
Proof.
  destruct (limited app env req) as [[|] l] eqn:Hl.
  - destruct (String.eqb_spec (GetHeader req "UNLK-API-KEY") "") as [He | He].
    + rewrite (setupRouter_no_key app env req l Hl (or_introl He)).
      by eexists.
    + destruct (String.eqb_spec (GetHeader req "UNLK-API-KEY") (apiKey app))
        as [Hk | Hk].
      * rewrite (setupRouter_admitted app env req l Hl He Hk). by eexists.
      * rewrite (setupRouter_no_key app env req l Hl (or_intror Hk)).
        by eexists.
  - rewrite (setupRouter_throttled app env req l Hl). by eexists.
Qed.

(** **** What [list] does on each of its paths *)

Lemma list_paths app env (p1 p2 : string) (q : gmap string string) :
  list' env p1 p2 q app =
  if negb (String.eqb p1 (secpath1 app)) || negb (String.eqb p2 (secpath2 app))
  then (c_Status StatusNotFound, app, [])
  else
    match query_options q with
    | None => (c_Status StatusBadRequest, app, [])
    | Some options =>
        match List (db app) options with
        | (Err err, d) =>
            (Internal_response err, with_db app d, [DbList options])
        | (Ok users, d) =>
            (list_answer env users (default "json" (q !! "mime")),
             with_db app d, [DbList options])
        end
    end.
Proof.
  unfold list', bind, get, ret. simpl.
  destruct (negb (String.eqb p1 (secpath1 app))
            || negb (String.eqb p2 (secpath2 app))); [reflexivity |].
  unfold query_options. simpl.
  destruct (_ ≫= _) as [options |]; [| reflexivity].
  unfold db_List. simpl.
  destruct (List (db app) options) as [[users | err] d]; [| reflexivity].
  unfold list_answer.
  destruct (String.eqb (default "json" (q !! "mime")) "csv"); reflexivity.
Qed.

(** X14.  [list] answers 404 when either path segment differs from
    the configured secure paths, whatever the query, and 400 when the
    query is not acceptable; in both cases it makes no call on the store
    and changes nothing. *)
Theorem list_rejects_before_the_store app env (p1 p2 : string)
    (q : gmap string string) :
  (p1 <> secpath1 app \/ p2 <> secpath2 app ->
   list' env p1 p2 q app = (c_Status StatusNotFound, app, []))
  /\ (p1 = secpath1 app -> p2 = secpath2 app -> query_options q = None ->
      list' env p1 p2 q app = (c_Status StatusBadRequest, app, [])).
Proof.
  rewrite list_paths. split.
  - intros [Hp | Hp]; apply String.eqb_neq in Hp; rewrite Hp; simpl;
      [reflexivity | by rewrite orb_true_r].
  - intros -> -> Hq. rewrite !String.eqb_refl, Hq. reflexivity.
Qed.

(** X15.  The query of [list] is not acceptable exactly when [offset]
    is given and is not an integer, or [max] is given and is not an
    integer or comes without [offset].  An acceptable query gives the
    store no option, the offset alone, or the offset and the maximum, in
    that order. *)
Theorem query_options_cases (q : gmap string string) :
  let offset := default "" (q !! "offset") in
  let max := default "" (q !! "max") in
  (query_options q = None
   <-> (offset <> "" /\ strconv.Atoi offset = None)
       \/ (max <> "" /\ (strconv.Atoi max = None \/ offset = "")))
  /\ (offset = "" -> max = "" -> query_options q = Some [])
  /\ (forall o, offset <> "" -> strconv.Atoi offset = Some o -> max = "" ->
                query_options q = Some [o])
  /\ (forall o mx, offset <> "" -> strconv.Atoi offset = Some o ->
                   max <> "" -> strconv.Atoi max = Some mx ->
                   query_options q = Some [o; mx]).
Proof.
  intros offset max. unfold query_options. fold offset. fold max.
  clearbody offset max.
  destruct (String.eqb_spec offset "") as [Ho | Ho];
    destruct (String.eqb_spec max "") as [Hm | Hm];
    destruct (strconv.Atoi offset) as [o |] eqn:Hao;
    destruct (strconv.Atoi max) as [mx |] eqn:Ham; simpl;
    (split; [split; [intros Hq | intros Hd] |
             split; [intros | split; intros]]);
    try reflexivity; try congruence; try discriminate;
    try (destruct Hd as [[? ?] | [? [? | ?]]]; congruence);
    try (left; split; [assumption | reflexivity]);
    try (right; split; [assumption |]; (by left) || (by right)).
Qed.

(** X16.  With the secure paths and an acceptable query, [list] asks
    the store once, with the options of the query.  An error of the
    store gives 500.  Otherwise the answer is 200: as JSON, the users
    with a count that is their number; for [mime=csv], one record of
    five fields per user, in the order of the store, under a header
    record, as a file transfer. *)
Theorem list_renders_the_users app env (q : gmap string string)
    (options : list Z) :
  query_options q = Some options ->
  calls (list' env (secpath1 app) (secpath2 app) q app) = [DbList options]
  /\ after (list' env (secpath1 app) (secpath2 app) q app)
     = with_db app (snd (List (db app) options))
  /\ (forall err, fst (List (db app) options) = Err err ->
        answer (list' env (secpath1 app) (secpath2 app) q app)
        = Internal_response err)
  /\ (forall users, fst (List (db app) options) = Ok users ->
        status (answer (list' env (secpath1 app) (secpath2 app) q app))
        = StatusOK
        /\ (default "json" (q !! "mime") <> "csv" ->
            body (answer (list' env (secpath1 app) (secpath2 app) q app))
            = JSON (<["count" := VInt (Z.of_nat (length users))]>
                      {[ "users" := VUsers users ]}))
        /\ (default "json" (q !! "mime") = "csv" ->
            exists records,
              body (answer (list' env (secpath1 app) (secpath2 app) q app))
              = Data "text/csv"
                  (["address"; "email"; "uuid"; "timestamp"; "sponsor"]
                   :: records)
              /\ length records = length users
              /\ Forall (fun r => length r = 5%nat) records
              /\ (fun r => nth 0 r "") <$> records = Address <$> users
              /\ headers (answer (list' env (secpath1 app) (secpath2 app) q app))
                 !! 0%nat
                 = Some ("Content-Description", "File Transfer"))).
Proof.
  intros Hq. rewrite list_paths, !String.eqb_refl, Hq. simpl.
  destruct (List (db app) options) as [[users | err] d]; simpl;
    (split; [reflexivity | split; [reflexivity |]]).
  - split; [discriminate |]. intros ? [= <-].
    unfold list_answer.
    destruct (String.eqb_spec (default "json" (q !! "mime")) "csv") as [Hm | Hm].
    + split; [reflexivity | split; [done |]]. intros _.
      eexists. split; [reflexivity |].
      rewrite length_map. split; [reflexivity |]. split.
      * apply Forall_forall. intros r Hr.
        apply list_elem_of_In, in_map_iff in Hr as (x & <- & _). reflexivity.
      * split; [| reflexivity]. clear.
        induction users as [| x users IH]; [reflexivity |].
        simpl. f_equal. exact IH.
    + split; [reflexivity | split; [done | done]].
  - split; [by intros ? [= <-] | discriminate].
Qed.

(** No handler touches the limiter or the configuration. *)
Lemma handler_frame app env (req : Request) :
  rl (after (handler env req app)) = rl app
  /\ apiKey (after (handler env req app)) = apiKey app
  /\ secpath1 (after (handler env req app)) = secpath1 app
  /\ secpath2 (after (handler env req app)) = secpath2 app.
Proof.
  unfold handler. destruct (op req) as [| p1 p2 q | b | t h | a].
  - by repeat split.
  - rewrite list_paths.
    destruct (negb (String.eqb p1 (secpath1 app))
              || negb (String.eqb p2 (secpath2 app))); [by repeat split |].
    destruct (query_options q) as [options |]; [| by repeat split].
    destruct (List (db app) options) as [[users | err] d]; by repeat split.
  - destruct (ShouldBindJSON b) as [u | e] eqn:Hb.
    + destruct (Create u (env_now env)) as [token | e] eqn:Hc.
      * rewrite (register_minted app env b u token Hb Hc). by repeat split.
      * rewrite (register_fault app env b u e Hb Hc). by repeat split.
    + rewrite (register_invalid app env b e Hb). by repeat split.
  - activate_paths app env t h; by repeat split.
  - unfold checkWallet, bind, c_IsPresent, ret. simpl.
    destruct (cache.IsPresent (c app) a); by repeat split.
Qed.

(** X17.  The limiter comes first for every request: the calls start
    with [GetAccess] and [Allow] for the client's address, and the
    limiter ends in the state these two calls give, since no handler
    touches it.  When [Allow] answers false the answer is 429 with that
    address in its body, no handler runs, and the store and the cache
    are what they were, whatever key the request carries. *)
Theorem limit_comes_first app env (req : Request) :
  (exists rest,
      calls (setupRouter env req app)
      = RlGetAccess (ClientIP req) :: RlAllow (ClientIP req) :: rest)
  /\ rl (after (setupRouter env req app)) = snd (limited app env req)
  /\ apiKey (after (setupRouter env req app)) = apiKey app
  /\ (fst (limited app env req) = false ->
      answer (setupRouter env req app)
      = add_headers cors_headers
          (c_JSON StatusTooManyRequests
             (<["ip" := VString (ClientIP req)]>
                (H_error (VString "Too Many Requests"))))
      /\ calls (setupRouter env req app)
         = [RlGetAccess (ClientIP req); RlAllow (ClientIP req)]
      /\ db (after (setupRouter env req app)) = db app
      /\ c (after (setupRouter env req app)) = c app).
Proof.
  destruct (limited app env req) as [[|] l] eqn:Hl; simpl.
  - destruct (String.eqb_spec (GetHeader req "UNLK-API-KEY") "") as [He | He];
      [| destruct (String.eqb_spec (GetHeader req "UNLK-API-KEY") (apiKey app))
           as [Hk | Hk]].
    + rewrite (setupRouter_no_key app env req l Hl (or_introl He)).
      split; [by eexists | by repeat split].
    + rewrite (setupRouter_admitted app env req l Hl He Hk).
      destruct (handler_frame (with_rl app l) env req) as (Hrl & Hkey & _).
      split; [by eexists | split; [exact Hrl | split; [exact Hkey | done]]].
    + rewrite (setupRouter_no_key app env req l Hl (or_intror Hk)).
      split; [by eexists | by repeat split].
  - rewrite (setupRouter_throttled app env req l Hl).
    split; [by eexists | by repeat split].
Qed.

(** X18.  A request that the limiter admits and that carries the
    configured key reaches its handler: the answer is the handler's,
    with the CORS headers in front, the calls are the handler's after
    the two of the limiter, and the application is as the handler leaves
    it.  For the health route this is 200 with status ok, and nothing
    but the limiter has moved. *)
Theorem setupRouter_runs_the_handler app env (req : Request) l :
  limited app env req = (true, l) ->
  GetHeader req "UNLK-API-KEY" <> "" ->
  GetHeader req "UNLK-API-KEY" = apiKey app ->
  answer (setupRouter env req app)
  = add_headers cors_headers (answer (handler env req (with_rl app l)))
  /\ after (setupRouter env req app) = after (handler env req (with_rl app l))
  /\ calls (setupRouter env req app)
     = [RlGetAccess (ClientIP req); RlAllow (ClientIP req)]
       ++ calls (handler env req (with_rl app l))
  /\ (op req = OpHealth ->
      setupRouter env req app
      = (add_headers cors_headers
           (c_JSON StatusOK {[ "status" := VString "ok" ]}),
         with_rl app l,
         [RlGetAccess (ClientIP req); RlAllow (ClientIP req)])).
Proof.
  intros Hl He Hk. rewrite (setupRouter_admitted app env req l Hl He Hk).
  do 3 (split; [reflexivity |]).
  intros Hop. unfold handler. rewrite Hop. reflexivity.
Qed.

(** X19.  [register] answers 202 or 400 and nothing else.  It hands
    exactly one mail to the mailer when it answers 202: the activation
    mail, to the contact of the request, with the link and the
    fingerprint of the token just minted.  When it answers 400, for a
    request that fails validation or a fault of [Create], it mails
    nothing and computes no fingerprint. *)
Theorem register_mails_once app env (body : string) :
  (status (answer (register env body app)) = StatusAccepted
   /\ exists u token,
       ShouldBindJSON body = Ok u
       /\ Create u (env_now env) = Ok token
       /\ filter (fun k => is_go k = true) (calls (register env body app))
          = [Go (SendActivationEmail (Email u) (generateSecuredLink token)
                   (Hash token))])
  \/ (status (answer (register env body app)) = StatusBadRequest
      /\ (exists e, answer (register env body app)
                    = c_JSON StatusBadRequest (H_error (VError e)))
      /\ filter (fun k => is_go k = true) (calls (register env body app)) = []
      /\ (forall token, JwtHash token ∉ calls (register env body app))).
Proof.
  destruct (ShouldBindJSON body) as [u | e] eqn:Hb.
  - destruct (Create u (env_now env)) as [token | e] eqn:Hc.
    + rewrite (register_minted app env body u token Hb Hc).
      left. split; [reflexivity |]. by exists u, token.
    + rewrite (register_fault app env body u e Hb Hc).
      right. split; [reflexivity | split; [by exists e | split; [reflexivity |]]].
      intros token Hin. apply list_elem_of_singleton in Hin. discriminate.
  - rewrite (register_invalid app env body e Hb).
    right. split; [reflexivity | split; [by exists e | split; [reflexivity |]]].
    intros token Hin. by apply elem_of_nil in Hin.
Qed.

(** X20.  The answer of [register] holds the raw token only when gin
    runs in debug mode: otherwise its JSON object has no "token" entry,
    whatever the request, and a 202 holds the "hash" entry alone. *)
Theorem register_token_only_in_debug app env (body : string)
    (hm : gmap string Value) :
  api.body (answer (register env body app)) = JSON hm ->
  (env_debug env = false -> hm !! "token" = None)
  /\ (env_debug env = false ->
      status (answer (register env body app)) = StatusAccepted ->
      dom hm = {[ "hash" ]})
  /\ (env_debug env = true ->
      forall u token,
        ShouldBindJSON body = Ok u -> Create u (env_now env) = Ok token ->
        hm !! "token" = Some (VString token)).
Proof.
  destruct (ShouldBindJSON body) as [u | e] eqn:Hb.
  - destruct (Create u (env_now env)) as [token | e] eqn:Hc.
    + rewrite (register_minted app env body u token Hb Hc).
      unfold Accepted_response. simpl.
      destruct (env_debug env); intros [= <-].
      * split; [discriminate | split; [discriminate |]].
        intros _ u' token' [= <-] Hc'. rewrite Hc in Hc'.
        injection Hc' as <-. by rewrite lookup_insert_eq.
      * split; [intros _; by rewrite lookup_singleton_ne |].
        split; [| discriminate]. intros _ _. by rewrite dom_singleton_L.
    + rewrite (register_fault app env body u e Hb Hc). simpl. intros [= <-].
      unfold H_error.
      split; [intros _; by rewrite lookup_singleton_ne |].
      split; [intros _; discriminate |].
      intros _ u' token' [= <-] Hc'. congruence.
  - rewrite (register_invalid app env body e Hb). simpl. intros [= <-].
    unfold H_error.
    split; [intros _; by rewrite lookup_singleton_ne |].
    split; [intros _; discriminate | intros _ ? ? ?; congruence].
Qed.

(** X21.  [activate] answers one of 201, 400, 401, 409 and 500.  Every
    401 is the same answer, whether the pattern, the fingerprint or
    [Extract] failed, and leaves the application as it was.  The store
    is called only for a token that matched the pattern, carried its
    fingerprint and passed [Extract]. *)
Theorem activate_checks_before_the_store app env t h :
  (status (answer (activate env t h app)) = StatusCreated
   \/ status (answer (activate env t h app)) = StatusBadRequest
   \/ status (answer (activate env t h app)) = StatusUnauthorized
   \/ status (answer (activate env t h app)) = StatusConflict
   \/ status (answer (activate env t h app)) = StatusInternalServerError)
  /\ (status (answer (activate env t h app)) = StatusUnauthorized ->
      answer (activate env t h app) = Unauthorized
      /\ after (activate env t h app) = app
      /\ forallb (fun k => negb (on_db k)) (calls (activate env t h app)) = true)
  /\ (status (answer (activate env t h app)) = StatusUnauthorized
      <-> jwtregexp_MatchString t = false \/ Hash t <> h
          \/ exists e, Extract t env = Err e)
  /\ (existsb on_db (calls (activate env t h app)) = true ->
      jwtregexp_MatchString t = true /\ Hash t = h
      /\ exists u, Extract t env = Ok u).
Proof.
  activate_paths app env t h; simpl;
    (split; [tauto |]);
    (split; [try discriminate; by intros _ |]);
    (split; [split; [try discriminate; intros _; eauto
                    | try reflexivity;
                      intros [? | [? | [? ?]]]; congruence]
            | try discriminate; intros _; eauto]).
Qed.

(** X22.  [activate] calls [Save] only with the user extracted from the
    token, and only after the store answered that it does not know the
    identity of that user and that it knows the referrer. *)
Theorem activate_saves_only_when_checked app env t h (v : User) :
  DbSave v ∈ calls (activate env t h app) ->
  Extract t env = Ok v
  /\ exists d1 d2,
      IsPresent (db app) (Address v) = (Ok false, d1)
      /\ IsPresent d1 (Sponsor v) = (Ok true, d2)
      /\ db (after (activate env t h app)) = snd (Save d2 v).
Proof.
  activate_paths app env t h; simpl; intros Hin;
    repeat (apply elem_of_cons in Hin as [Hin | Hin]; [try discriminate |]);
    try (by apply elem_of_nil in Hin).
  - injection Hin as <-. split; [reflexivity |].
    exists d1, d2. rewrite H3. by repeat split.
  - injection Hin as <-. split; [reflexivity |].
    exists d1, d2. rewrite H3. by repeat split.
Qed.

(** X23.  [activate] hands a mail to the mailer only when it answers
    201, and then exactly one: the confirmation, to the contact that
    [Extract] gave, also when [Save] has rewritten the contact of the
    record; the body of the 201 is the record as [Save] left it. *)
Theorem activate_mails_once app env t h :
  (status (answer (activate env t h app)) <> StatusCreated
   /\ filter (fun k => is_go k = true) (calls (activate env t h app)) = [])
  \/ (exists u d2,
         Extract t env = Ok u
         /\ fst (fst (Save d2 u)) = None
         /\ answer (activate env t h app)
            = c_JSONUser StatusCreated (snd (fst (Save d2 u)))
         /\ filter (fun k => is_go k = true) (calls (activate env t h app))
            = [Go (SendConfirmationEmail (Email u))]).
Proof.
  activate_paths app env t h; simpl; try (left; by split).
  right. exists u, d2. rewrite H3. by repeat split.
Qed.

End Facts.

End api_more.

Module crypto_more.
Import data crypto crypto_facts.

Section Facts.
Context `{Codec} `{Settings}.

(** X25.  [JWTHMAC.Extract] verifies with the key of the instance and
    for the HMAC family, whatever the strength the instance was made
    for: the instances that [NewJWTHS256] and [NewJWTHS512] make from
    one secret extract alike, so each accepts, within its window, a
    token that the other created for complete claims. *)
Theorem hmac_instances_share_a_secret (s : Key) (u : User) (t : Time)
    (token : string) (env : Env) :
  (forall token' env',
      JWT_Extract (NewJWTHS256 s) token' env'
      = JWT_Extract (NewJWTHS512 s) token' env')
  /\ (Signer_correct -> Codec_correct -> complete u ->
      t <= env_now env < t + fixedWindow ->
      (JWT_Create (NewJWTHS256 s) u t = Ok token ->
       exists u', JWT_Extract (NewJWTHS512 s) token env = Ok u'
                  /\ candidate u' = candidate u)
      /\ (JWT_Create (NewJWTHS512 s) u t = Ok token ->
          exists u', JWT_Extract (NewJWTHS256 s) token env = Ok u'
                     /\ candidate u' = candidate u)).
Proof.
  split; [reflexivity |].
  intros Hs Hc (Ha & He & Hp) [Hlo Hhi].
  assert (Hacc : forall b,
             family (method b) = HMAC -> k b = s ->
             create b u t = Ok token ->
             exists u', extract HMAC token s env = Ok u'
                        /\ candidate u' = candidate u).
  { intros b Hf Hk Hcreate. unfold extract.
    pose proof (verified_created b u t token (env_now env) Hs Hc Hcreate)
      as Hv. rewrite Hf, Hk in Hv. rewrite Hv.
    destruct (Z.ltb_spec (env_now env) t); [lia |].
    destruct (Z.leb_spec (t + fixedWindow) (env_now env)); [lia |].
    rewrite (eqb_empty_false _ Ha), (eqb_empty_false _ He),
      (eqb_empty_false _ Hp). simpl.
    eexists. split; reflexivity. }
  split; intros Hcreate.
  - exact (Hacc {| method := HS256; k := s |} eq_refl eq_refl Hcreate).
  - exact (Hacc {| method := HS512; k := s |} eq_refl eq_refl Hcreate).
Qed.

End Facts.

End crypto_more.

(* --------------------------------------------------------------------- *)
(** ** The further properties at the values of the tests                  *)
(* --------------------------------------------------------------------- *)
Module more_examples.
Import data crypto limiter api fixtures.
Import api_facts crypto_facts fixtures_facts examples.
Import cacheref_facts main_facts api_more crypto_more.

(** X4 at the maps of TestCacheFillSwapsMap: a cache that held "old",
    filled with the caller's map that holds "new". *)
Lemma Fill_shares_the_map_witness :
  let h : gmap positive (gmap string Z) :=
    <[2%positive := {[ "new" := 42 ]}]> {[ 1%positive := {[ "old" := 1 ]} ]} in
  let c := {| cacheref.m := Some 1%positive |} in
  h !! 2%positive = Some {[ "new" := 42 ]}
  /\ cacheref.m (fst (cacheref.Fill h c (Some 2%positive))) = Some 2%positive.
Proof.
  intros h c.
  assert (Hl : h !! 2%positive = Some {[ "new" := 42 ]}) by reflexivity.
  split; [exact Hl |].
  exact (proj1 (proj2
           (Fill_shares_the_map h c 2%positive {[ "new" := 42 ]} "k" "k" 0 Hl))).
Defined.

(** X8 on the store of TestActivate, which lists the sponsor. *)
Lemma initCache_then_checkWallet_witness :
  (List (db app0) [] = (Ok [mkUser sponsor "" "" 0 ""], db app0)
   /\ initCache app0
      = inr (with_c (with_db app0 (db app0))
               (cache.Fill cache.New
                  (Some (users_map [mkUser sponsor "" "" 0 ""])))))
  /\ calls (checkWallet sponsor
              (with_c (with_db app0 (db app0))
                 (cache.Fill cache.New
                    (Some (users_map [mkUser sponsor "" "" 0 ""])))))
     = [CacheIsPresent sponsor].
Proof.
  assert (HL : List (db app0) [] = (Ok [mkUser sponsor "" "" 0 ""], db app0))
    by reflexivity.
  assert (HI : initCache app0
               = inr (with_c (with_db app0 (db app0))
                        (cache.Fill cache.New
                           (Some (users_map [mkUser sponsor "" "" 0 ""])))))
    by reflexivity.
  split; [exact (conj HL HI) |].
  exact (proj1 (proj2
           (initCache_then_checkWallet app0 _ _ _ sponsor HL HI))).
Defined.

(** X11 at "valid token+hash" of TestActivate. *)
Lemma activate_then_checkWallet_witness :
  status (answer (activate env0 vt vh app0)) = StatusCreated
  /\ exists u',
      answer (activate env0 vt vh app0) = c_JSONUser StatusCreated u'
      /\ status (answer (checkWallet (Address u')
                           (after (activate env0 vt vh app0))))
         = StatusOK
      /\ (forall a, a <> Address u' ->
                    answer (checkWallet a (after (activate env0 vt vh app0)))
                    = answer (checkWallet a app0)).
Proof.
  assert (Hs : status (answer (activate env0 vt vh app0)) = StatusCreated)
    by (vm_compute; reflexivity).
  split; [exact Hs |].
  exact (activate_then_checkWallet app0 env0 vt vh Hs).
Defined.

(** X16 at "offset=5 max=3" of TestList. *)
Lemma list_renders_the_users_witness :
  let q : gmap string string := <["max" := "3"]> {[ "offset" := "5" ]} in
  query_options q = Some [5; 3]
  /\ calls (list' env0 (secpath1 app0) (secpath2 app0) q app0) = [DbList [5; 3]].
Proof.
  intros q.
  assert (Hq : query_options q = Some [5; 3]) by (vm_compute; reflexivity).
  split; [exact Hq |].
  exact (proj1 (list_renders_the_users app0 env0 q [5; 3] Hq)).
Defined.

(** X18 at TestHealth. *)
Lemma setupRouter_runs_the_handler_witness :
  let req := mkRequest OpHealth with_key "203.0.113.7" in
  (limited app0 env0 req = (true, rl app0)
   /\ GetHeader req "UNLK-API-KEY" <> ""
   /\ GetHeader req "UNLK-API-KEY" = apiKey app0)
  /\ answer (setupRouter env0 req app0)
     = add_headers cors_headers
         (answer (handler env0 req (with_rl app0 (rl app0)))).
Proof.
  intros req.
  assert (Hl : limited app0 env0 req = (true, rl app0)) by reflexivity.
  assert (He : GetHeader req "UNLK-API-KEY" <> "")
    by (vm_compute; discriminate).
  assert (Hk : GetHeader req "UNLK-API-KEY" = apiKey app0)
    by (vm_compute; reflexivity).
  split; [exact (conj Hl (conj He Hk)) |].
  exact (proj1 (setupRouter_runs_the_handler app0 env0 req (rl app0) Hl He Hk)).
Defined.

(** X20 at "valid user" of TestRegister, outside debug mode. *)
Lemma register_token_only_in_debug_witness :
  api.body (answer (register env0 body0 app0)) = JSON {[ "hash" := VString vh ]}
  /\ (env_debug env0 = false ->
      ({[ "hash" := VString vh ]} : gmap string Value) !! "token" = None).
Proof.
  assert (Hb : api.body (answer (register env0 body0 app0))
               = JSON {[ "hash" := VString vh ]}) by (vm_compute; reflexivity).
  split; [exact Hb |].
  exact (proj1 (register_token_only_in_debug app0 env0 body0 _ Hb)).
Defined.

(** X22 at "valid token+hash" of TestActivate. *)
Lemma activate_saves_only_when_checked_witness :
  DbSave extracted ∈ calls (activate env0 vt vh app0)
  /\ Extract vt env0 = Ok extracted.
Proof.
  assert (Hin : DbSave extracted ∈ calls (activate env0 vt vh app0)).
  { replace (calls (activate env0 vt vh app0))
      with [JwtHash vt; JwtExtract vt; DbIsPresent address;
            DbIsPresent sponsor; DbSave extracted;
            CacheAdd address (env_millis env0);
            Go (SendConfirmationEmail email)]
      by (vm_compute; reflexivity).
    do 4 right. left. }
  split; [exact Hin |].
  exact (proj1 (activate_saves_only_when_checked app0 env0 vt vh extracted Hin)).
Defined.

(** X25 at the secret of the tests: the HS512 instance accepts the
    token of the HS256 instance. *)
Lemma hmac_instances_share_a_secret_witness :
  (Signer_correct /\ Codec_correct /\ complete u
   /\ issued <= env_now env0 < issued + fixedWindow
   /\ JWT_Create (NewJWTHS256 secret) u issued = Ok vt)
  /\ exists u', JWT_Extract (NewJWTHS512 secret) vt env0 = Ok u'
                /\ candidate u' = candidate u.
Proof.
  assert (Hw : issued <= env_now env0 < issued + fixedWindow).
  { vm_compute. split; [discriminate | reflexivity]. }
  split.
  - exact (conj symbolic_correct
             (conj hexcodec_correct (conj u_complete (conj Hw vt_created)))).
  - exact (proj1 (proj2 (hmac_instances_share_a_secret secret u issued vt env0)
                    symbolic_correct hexcodec_correct u_complete Hw)
             vt_created).
Defined.

End more_examples.
